(** * NoSoliciting.Reviewer: the tagged-envelope text decoder of reviewer.py

    A shallow embedding of [get_int], [get_text], [do_replacements] and the
    field handling of [process_item] from [reviewer.py], together with the
    parts of the Python runtime they rest on ([io.BytesIO.read], indexing of
    [bytes], [int.from_bytes], [bytes.decode("utf-8")], [str.replace] and
    [str.strip]).

    Python exceptions are values of type [exn]; the specification's names
    for them are
      - TruncatedInputError  = [IndexError]   (indexing an empty read),
      - FormatError          = [AssertionError] (the END assertion),
      - EncodingError        = [UnicodeDecodeError].

    The interactive part ([display_item], [prompt_action],
    [prompt_reclassify], [write_to_csv], [delete_report] and the loop over
    the reports of a batch in [review_reports]) runs in a [world] made of
    the typed lines, the terminal output and the rows written and delete
    requests issued. *)

From Stdlib Require Import ZArith List Lia Bool.
From Stdlib Require Import Strings.Byte Strings.Ascii Strings.String.
From Stdlib Require Import DecimalString.
From stdpp Require Import base list.

Local Open Scope Z_scope.

(** ** Python values *)

(** A Python [bytes]/[bytearray] object. *)
Abbreviation bytes := (list byte).

(** A Python [str]: a sequence of Unicode code points. *)
Abbreviation str := (list Z).

(** Indexing a [bytes] object yields an [int] in 0..255. *)
Definition byte_int (b : byte) : Z := Z.of_N (Byte.to_N b).

(** An ASCII literal as a Python [str]. *)
Definition py (s : string) : str :=
  map (fun a => Z.of_N (N_of_ascii a)) (list_ascii_of_string s).

(** An ASCII literal as a Python [bytes]. *)
Definition pyb (s : string) : bytes := list_byte_of_string s.

Inductive exn : Set :=
| IndexError
| AssertionError
| UnicodeDecodeError
| KeyError
| ValueError.

(** What running a piece of code gives: a value, a raised exception, or
    [OutOfFuel] when the iteration budget of a modelled [while] loop ran out
    (only [get_text_loop] produces it, and [get_text] never does: theorem
    [get_text_terminates]). *)
Inductive outcome (A : Type) : Type :=
| Ok (a : A)
| Raise (e : exn)
| OutOfFuel.
Arguments Ok {A} a.
Arguments Raise {A} e.
Arguments OutOfFuel {A}.

(** ** io.BytesIO *)

Module BytesIO.

(** The buffer and the read position ([tell()]). *)
Record t : Type := mk { getvalue : bytes; tell : nat }.

(** A computation that threads a cursor and may raise. *)
Definition M (A : Type) : Type := t -> outcome (A * t).

Definition ret {A} (a : A) : M A := fun cursor => Ok (a, cursor).

Definition raise {A} (e : exn) : M A := fun _ => Raise e.

Definition bind {A B} (m : M A) (k : A -> M B) : M B :=
  fun cursor =>
    match m cursor with
    | Ok (a, cursor') => k a cursor'
    | Raise e => Raise e
    | OutOfFuel => OutOfFuel
    end.

(** The bytes not yet read. *)
Definition remaining (cursor : t) : bytes :=
  drop (tell cursor) (getvalue cursor).

(** [cursor.read(size)]: at most [size] bytes, fewer at the end of the
    buffer, none when it is exhausted; a negative [size] reads everything
    that is left.  It never raises. *)
Definition read (size : Z) : M bytes :=
  fun cursor =>
    let avail := remaining cursor in
    let chunk := if size <? 0 then avail else take (Z.to_nat size) avail in
    Ok (chunk, mk (getvalue cursor) (tell cursor + length chunk)%nat).

End BytesIO.

Notation "x <- m ;; k" := (BytesIO.bind m (fun x => k))
  (at level 100, m at next level, right associativity).

Import BytesIO (ret, raise, read).

(** [bs[0]]: raises IndexError on an empty [bytes]. *)
Definition index0 (bs : bytes) : BytesIO.M byte :=
  match bs with
  | [] => raise IndexError
  | b :: _ => ret b
  end.

(** [for x in xs: s = body(x, s)] *)
Fixpoint for_each {A S : Type} (xs : list A) (body : A -> S -> BytesIO.M S)
    (s : S) : BytesIO.M S :=
  match xs with
  | [] => ret s
  | x :: xs' => s' <- body x s ;; for_each xs' body s'
  end.

(** [int.from_bytes(bs, byteorder="little")] *)
Definition int_from_bytes_little (bs : bytes) : Z :=
  fold_right (fun b acc => byte_int b + 256 * acc) 0 bs.

(** ** get_int *)

(** The body of [for i in range(4)]: when bit [i] of the mask is set, one
    byte is read and stored at [result[3 - i]]. *)
Definition get_int_step (marker : Z) (i : nat) (result : bytes)
    : BytesIO.M bytes :=
  if negb (Z.land marker (Z.shiftl 1 (Z.of_nat i)) =? 0) then
    bs <- read 1 ;;
    b <- index0 bs ;;
    ret (<[(3 - i)%nat := b]> result)
  else ret result.

(** The second branch of [get_int], up to the filled [bytearray(4)]. *)
Definition get_int_buffer (marker : Z) : BytesIO.M bytes :=
  let marker := Z.land (marker + 1) 0xF in
  for_each (seq 0 4) (get_int_step marker) (replicate 4 x00).

Definition get_int : BytesIO.M Z :=
  bs <- read 1 ;;
  marker <- index0 bs ;;
  let marker := byte_int marker in
  if marker <? 0xD0 then ret (marker - 1)
  else
    result <- get_int_buffer marker ;;
    ret (int_from_bytes_little result).

(** Number of set bits of the mask [p] strictly below bit [i]: the offset,
    among the bytes that follow the marker, of the byte that belongs to
    bit [i]. *)
Definition rank (p : Z) (i : nat) : nat :=
  length (List.filter (fun j => Z.testbit p (Z.of_nat j)) (seq 0 i)).

(** The value the integer gets from bit [i] of the mask [p], for a marker
    followed by the bytes at [pos], [pos + 1], ...: the byte that belongs to
    the bit when it is set, and 0 when it is clear. *)
Definition present_byte (p : Z) (data : bytes) (pos i : nat) : Z :=
  if Z.testbit p (Z.of_nat i) then
    match data !! (pos + rank p i)%nat with
    | Some b => byte_int b
    | None => 0
    end
  else 0.

(** ** get_text *)

Definition START : Z := 2.
Definition END : Z := 3.

(** One iteration of the [while] loop of [get_text]: the new accumulator. *)
Definition get_text_body (result : bytes) : BytesIO.M bytes :=
  bs <- read 1 ;;
  byte <- index0 bs ;;
  if byte_int byte =? START then
    _ <- read 1 ;;
    length <- get_int ;;
    _ <- read length ;;
    bs <- read 1 ;;
    end_byte <- index0 bs ;;
    if byte_int end_byte =? END then ret result
    else raise AssertionError
  else ret (result ++ [byte]).

(** [while cursor.tell() < len(input_data): ...] with an iteration budget. *)
Fixpoint get_text_loop (fuel : nat) (input_data : bytes) (result : bytes)
    (cursor : BytesIO.t) : outcome bytes :=
  if (BytesIO.tell cursor <? length input_data)%nat then
    match fuel with
    | O => OutOfFuel
    | S fuel' =>
        match get_text_body result cursor with
        | Ok (result', cursor') =>
            get_text_loop fuel' input_data result' cursor'
        | Raise e => Raise e
        | OutOfFuel => OutOfFuel
        end
    end
  else Ok result.

(** ** bytes.decode("utf-8"), strict *)

Definition is_cont (c : Z) : bool := (0x80 <=? c) && (c <=? 0xBF).

Definition in_range (lo hi c : Z) : bool := (lo <=? c) && (c <=? hi).

(** Bounds of the second byte of a three-byte sequence: no overlong forms
    (lead E0) and no surrogates (lead ED). *)
Definition second3 (c0 : Z) : Z * Z :=
  if c0 =? 0xE0 then (0xA0, 0xBF)
  else if c0 =? 0xED then (0x80, 0x9F)
  else (0x80, 0xBF).

(** Bounds of the second byte of a four-byte sequence: no overlong forms
    (lead F0) and nothing above U+10FFFF (lead F4). *)
Definition second4 (c0 : Z) : Z * Z :=
  if c0 =? 0xF0 then (0x90, 0xBF)
  else if c0 =? 0xF4 then (0x80, 0x8F)
  else (0x80, 0xBF).

Fixpoint utf8_decode (bs : bytes) : option str :=
  match bs with
  | [] => Some []
  | b0 :: r0 =>
      let c0 := byte_int b0 in
      if c0 <? 0x80 then cons c0 <$> utf8_decode r0
      else if in_range 0xC2 0xDF c0 then
        match r0 with
        | b1 :: r1 =>
            let c1 := byte_int b1 in
            if is_cont c1
            then cons ((c0 - 0xC0) * 64 + (c1 - 0x80)) <$> utf8_decode r1
            else None
        | _ => None
        end
      else if in_range 0xE0 0xEF c0 then
        match r0 with
        | b1 :: b2 :: r2 =>
            let c1 := byte_int b1 in
            let c2 := byte_int b2 in
            if in_range (fst (second3 c0)) (snd (second3 c0)) c1 && is_cont c2
            then cons ((c0 - 0xE0) * 4096 + (c1 - 0x80) * 64 + (c2 - 0x80))
                   <$> utf8_decode r2
            else None
        | _ => None
        end
      else if in_range 0xF0 0xF4 c0 then
        match r0 with
        | b1 :: b2 :: b3 :: r3 =>
            let c1 := byte_int b1 in
            let c2 := byte_int b2 in
            let c3 := byte_int b3 in
            if in_range (fst (second4 c0)) (snd (second4 c0)) c1
               && is_cont c2 && is_cont c3
            then cons ((c0 - 0xF0) * 262144 + (c1 - 0x80) * 4096
                       + (c2 - 0x80) * 64 + (c3 - 0x80))
                   <$> utf8_decode r3
            else None
        | _ => None
        end
      else None
  end.

(** [result.decode("utf-8")] *)
Definition decode_utf8 (result : bytes) : outcome str :=
  match utf8_decode result with
  | Some s => Ok s
  | None => Raise UnicodeDecodeError
  end.

(** [get_text] with an explicit iteration budget for its loop. *)
Definition get_text_fuel (fuel : nat) (input_data : bytes) : outcome str :=
  match get_text_loop fuel input_data [] (BytesIO.mk input_data 0) with
  | Ok result => decode_utf8 result
  | Raise e => Raise e
  | OutOfFuel => OutOfFuel
  end.

(** [get_text]: every iteration reads at least one byte, so [len(input_data)]
    iterations are enough (theorem [get_text_terminates]). *)
Definition get_text (input_data : bytes) : outcome str :=
  get_text_fuel (length input_data) input_data.

(** Number of bytes [cursor.read(size)] takes from [data] at position
    [pos]: all that is left for a negative [size], at most [size] of them
    otherwise. *)
Definition read_length (size : Z) (data : bytes) (pos : nat) : nat :=
  if size <? 0 then (length data - pos)%nat
  else (Z.to_nat size `min` (length data - pos))%nat.

(** The states [(result, cursor)] at which the loop of [get_text] tests its
    condition: the initial one, and the one each completed iteration leaves
    behind. *)
Inductive reaches (input_data : bytes) : bytes -> BytesIO.t -> Prop :=
| reaches_start : reaches input_data [] (BytesIO.mk input_data 0)
| reaches_step result cursor result' cursor' :
    reaches input_data result cursor ->
    (BytesIO.tell cursor < length input_data)%nat ->
    get_text_body result cursor = Ok (result', cursor') ->
    reaches input_data result' cursor'.

(** A block opened by the START byte at [pos] that the buffer does not
    hold in full: one constructor for each read that would run past the
    end. *)
Inductive truncated_block (data : bytes) (pos : nat) : Prop :=
| truncated_kind :
    (length data <= S pos)%nat ->
    truncated_block data pos
| truncated_marker :
    (length data <= S (S pos))%nat ->
    truncated_block data pos
| truncated_mask_byte m :
    data !! S (S pos) = Some m ->
    0xD0 <= byte_int m ->
    (length data < S (S (S pos)) + rank (Z.land (byte_int m + 1) 0xF) 4)%nat ->
    truncated_block data pos
| truncated_payload n pos1 :
    get_int (BytesIO.mk data (S (S pos))) = Ok (n, BytesIO.mk data pos1) ->
    (length data < pos1 + Z.to_nat n)%nat ->
    truncated_block data pos
| truncated_end n pos1 :
    get_int (BytesIO.mk data (S (S pos))) = Ok (n, BytesIO.mk data pos1) ->
    length data = (pos1 + Z.to_nat n)%nat ->
    truncated_block data pos.

(** ** str.replace and str.strip *)

Fixpoint starts_with (old text : str) : bool :=
  match old, text with
  | [], _ => true
  | o :: old', c :: text' => (o =? c) && starts_with old' text'
  | _ :: _, [] => false
  end.

(** Left-to-right replacement of the non-overlapping occurrences of a
    non-empty [old]; [skip] counts the characters of the occurrence just
    replaced that are still to be passed over. *)
Fixpoint replace_from (skip : nat) (old new text : str) : str :=
  match text with
  | [] => []
  | c :: rest =>
      match skip with
      | S skip' => replace_from skip' old new rest
      | O =>
          if starts_with old text
          then new ++ replace_from (length old - 1) old new rest
          else c :: replace_from 0 old new rest
      end
  end.

(** [text.replace(old, new)]; an empty [old] matches before every character
    and at the end. *)
Definition replace (text old new : str) : str :=
  match old with
  | [] => new ++ flat_map (fun c => c :: new) text
  | _ :: _ => replace_from 0 old new text
  end.

(** [str.isspace] on one code point (the whitespace set of CPython). *)
Definition isspace (c : Z) : bool :=
  in_range 0x09 0x0D c || in_range 0x1C 0x20 c || (c =? 0x85) || (c =? 0xA0)
  || (c =? 0x1680) || in_range 0x2000 0x200A c || (c =? 0x2028)
  || (c =? 0x2029) || (c =? 0x202F) || (c =? 0x205F) || (c =? 0x3000).

Fixpoint lstrip (s : str) : str :=
  match s with
  | [] => []
  | c :: rest => if isspace c then lstrip rest else s
  end.

Definition rstrip (s : str) : str := reverse (lstrip (reverse s)).

(** [s.strip()] *)
Definition strip (s : str) : str := rstrip (lstrip s).

Definition CR : Z := 13.
Definition LF : Z := 10.
Definition SP : Z := 32.

(** [.replace("\r\n", " ").replace("\r", " ").replace("\n", " ").strip()],
    the tail of the content expression of [process_item]. *)
Definition collapse_lines (text : str) : str :=
  strip (replace (replace (replace text [CR; LF] [SP]) [CR] [SP]) [LF] [SP]).

(** The same text in the specification's words, as one pass: a CR LF
    pair, a lone CR and a lone LF each become one space. *)
Fixpoint collapse_spec (text : str) : str :=
  match text with
  | [] => []
  | c :: rest =>
      if c =? CR then
        match rest with
        | d :: rest' =>
            if d =? LF then SP :: collapse_spec rest'
            else SP :: collapse_spec rest
        | [] => [SP]
        end
      else if c =? LF then SP :: collapse_spec rest
      else c :: collapse_spec rest
  end.

Definition is_line_end (c : Z) : bool := (c =? CR) || (c =? LF).



(** ** process_item *)

(** A stored report: each attribute is [None] when the key or its type tag
    is absent (the lookup raises KeyError). *)
Record report : Type := mk_report {
  sender_B : option bytes;
  content_B : option bytes;
  type_N : option str;
  reason_S : option str;
  suggested_classification_S : option str;
  id_S : option str
}.

(** The dictionary [process_item] returns. *)
Record processed : Type := mk_processed {
  sender : str;
  content : str;
  type : Z;
  reason : str;
  suggested_classification : str;
  id : str
}.

Definition obind {A B} (m : outcome A) (k : A -> outcome B) : outcome B :=
  match m with
  | Ok a => k a
  | Raise e => Raise e
  | OutOfFuel => OutOfFuel
  end.

Notation "x <~ m ;; k" := (obind m (fun x => k))
  (at level 100, m at next level, right associativity).

(** [d[key]] on an attribute that may be absent. *)
Definition getitem {A} (o : option A) : outcome A :=
  match o with
  | Some a => Ok a
  | None => Raise KeyError
  end.

Section Reviewer.

(** [constants.REPLACEMENTS], in the order of [.items()]. *)
Variable REPLACEMENTS : list (str * str).

(** [base64.b64decode]; [None] when it raises [binascii.Error]. *)
Variable b64decode : bytes -> option bytes.

(** The built-in [int] on a [str]; [None] when it raises [ValueError]. *)
Variable int_of_str : str -> option Z.

Definition do_replacements (text : str) : str :=
  fold_left (fun text '(needle, replacement) =>
               replace text needle replacement)
            REPLACEMENTS text.

Definition is_base64 (data : bytes) : bool :=
  match b64decode data with
  | Some _ => true
  | None => false
  end.

Definition decode_field (field : bytes) : bytes :=
  if is_base64 field then
    match b64decode field with
    | Some decoded => decoded
    | None => field
    end
  else field.

(** [None] is Python's [None]: a report without sender or content. *)
Definition process_item (item : report) : outcome (option processed) :=
  match sender_B item, content_B item with
  | Some s, Some c =>
      let sender := decode_field s in
      let content := decode_field c in
      sender_text <~ get_text sender ;;
      content_text <~ get_text content ;;
      type_text <~ getitem (type_N item) ;;
      type_int <~ match int_of_str type_text with
                  | Some n => Ok n
                  | None => Raise ValueError
                  end ;;
      reason <~ getitem (reason_S item) ;;
      suggested <~ getitem (suggested_classification_S item) ;;
      id <~ getitem (id_S item) ;;
      Ok (Some (mk_processed
                  (do_replacements sender_text)
                  (collapse_lines (do_replacements content_text))
                  type_int reason suggested id))
  | _, _ => Ok None
  end.

End Reviewer.

(** ** A sample report *)

(** A one-entry table: FULLWIDTH COMMA becomes a comma. *)
Definition sample_table : list (str * str) := [([0xFF0C], py ",")].

(** A store whose fields are kept raw, and a type attribute that reads 1. *)
Definition sample_b64decode (_ : bytes) : option bytes := None.
Definition sample_int_of_str (_ : str) : option Z := Some 1.

(** Sender [" A\r\nB "], content ["line1\r\nline2\rline3\n"]. *)
Definition sample_report : report :=
  {| sender_B := Some ([x20; x41; x0d; x0a; x42; x20]);
     content_B := Some (pyb "line1" ++ [x0d; x0a] ++ pyb "line2" ++ [x0d]
                        ++ pyb "line3" ++ [x0a]);
     type_N := Some (py "1");
     reason_S := Some (py "NORMAL");
     suggested_classification_S := Some (py "RMT_C");
     id_S := Some (py "r1") |}.

Definition sample_processed : processed :=
  {| sender := [SP; 65; CR; LF; 66; SP];
     content := py "line1 line2 line3";
     type := 1;
     reason := py "NORMAL";
     suggested_classification := py "RMT_C";
     id := py "r1" |}.




(** ** Buffers put together *)

(** The literal accumulator at the end of the loop of [get_text], before it
    is decoded. *)
Definition literal_bytes (input_data : bytes) : outcome bytes :=
  get_text_loop (length input_data) input_data [] (BytesIO.mk input_data 0).

(** The same outcome for a cursor whose buffer has [prefix] put in front. *)
Definition rebase {A} (prefix : bytes) (o : outcome (A * BytesIO.t))
    : outcome (A * BytesIO.t) :=
  match o with
  | Ok (a, cursor) =>
      Ok (a, BytesIO.mk (prefix ++ BytesIO.getvalue cursor)
                        (length prefix + BytesIO.tell cursor))
  | Raise e => Raise e
  | OutOfFuel => OutOfFuel
  end.

(** A computation that only looks at the bytes from the cursor on. *)
Definition shiftable {A} (m : BytesIO.M A) : Prop :=
  forall (prefix data : bytes) (pos : nat),
    m (BytesIO.mk (prefix ++ data) (length prefix + pos))
    = rebase prefix (m (BytesIO.mk data pos)).

(** A computation that, once it has returned, returns the same on every
    longer buffer. *)
Definition extends {A} (m : BytesIO.M A) : Prop :=
  forall (data : bytes) (pos : nat) (a : A) (cursor : BytesIO.t),
    m (BytesIO.mk data pos) = Ok (a, cursor) ->
    exists pos',
      cursor = BytesIO.mk data pos'
      /\ forall more : bytes,
           m (BytesIO.mk (data ++ more) pos)
           = Ok (a, BytesIO.mk (data ++ more) pos').

(** An outcome with [prefix] put in front of the accumulator. *)
Definition prepend (prefix : bytes) (o : outcome bytes) : outcome bytes :=
  match o with
  | Ok result => Ok (prefix ++ result)
  | Raise e => Raise e
  | OutOfFuel => OutOfFuel
  end.

(** The first code point of a UTF-8 byte sequence and the bytes behind it:
    one round of [utf8_decode]. *)
Definition utf8_step (bs : bytes) : option (Z * bytes) :=
  match bs with
  | [] => None
  | b0 :: r0 =>
      let c0 := byte_int b0 in
      if c0 <? 0x80 then Some (c0, r0)
      else if in_range 0xC2 0xDF c0 then
        match r0 with
        | b1 :: r1 =>
            let c1 := byte_int b1 in
            if is_cont c1
            then Some ((c0 - 0xC0) * 64 + (c1 - 0x80), r1)
            else None
        | _ => None
        end
      else if in_range 0xE0 0xEF c0 then
        match r0 with
        | b1 :: b2 :: r2 =>
            let c1 := byte_int b1 in
            let c2 := byte_int b2 in
            if in_range (fst (second3 c0)) (snd (second3 c0)) c1 && is_cont c2
            then Some ((c0 - 0xE0) * 4096 + (c1 - 0x80) * 64 + (c2 - 0x80),
                       r2)
            else None
        | _ => None
        end
      else if in_range 0xF0 0xF4 c0 then
        match r0 with
        | b1 :: b2 :: b3 :: r3 =>
            let c1 := byte_int b1 in
            let c2 := byte_int b2 in
            let c3 := byte_int b3 in
            if in_range (fst (second4 c0)) (snd (second4 c0)) c1
               && is_cont c2 && is_cont c3
            then Some ((c0 - 0xF0) * 262144 + (c1 - 0x80) * 4096
                       + (c2 - 0x80) * 64 + (c3 - 0x80), r3)
            else None
        | _ => None
        end
      else None
  end.

(** [old in text]: [old] is a substring of [text]. *)
Definition occurs_in (old text : str) : Prop :=
  exists pre post, text = pre ++ old ++ post.

(** A report without a sender, and one whose content ends inside a block. *)
Definition sample_no_sender : report :=
  {| sender_B := None;
     content_B := Some (pyb "hello");
     type_N := None;
     reason_S := None;
     suggested_classification_S := None;
     id_S := Some (py "r2") |}.

Definition sample_truncated : report :=
  {| sender_B := Some (pyb "Al");
     content_B := Some (pyb "hi" ++ [x02; x00]);
     type_N := Some (py "1");
     reason_S := Some (py "NORMAL");
     suggested_classification_S := Some (py "RMT_C");
     id_S := Some (py "r3") |}.

(** ** The terminal, the CSV file and the table *)

(** What [review_reports] does to the outside: a row handed to
    [csv_writer.writerow] (and flushed), or a [delete_item] request. *)
Inductive effect : Type :=
| CsvRow (classification : str) (message_type : Z) (content : str)
| DeleteItem (report_id : str).

(** The lines still to be typed, what has been written to the terminal
    (oldest first) and the effects so far (oldest first). *)
Record world : Type := mk_world {
  stdin : list str;
  stdout : list str;
  effects : list effect
}.

(** Why a run stopped: an exception of [exn], the EOFError of [input] at
    the end of the input, or the iteration budget of a modelled
    [while True] loop. *)
Inductive abort : Type :=
| Exception (e : exn)
| EOFError
| NoFuel.

Inductive result (A : Type) : Type :=
| Done (a : A) (w : world)
| Abort (why : abort) (w : world).
Arguments Done {A} a w.
Arguments Abort {A} why w.

Definition rbind {A B} (m : result A) (k : A -> world -> result B)
    : result B :=
  match m with
  | Done a w => k a w
  | Abort why w => Abort why w
  end.

(** [print(text)] *)
Definition print (text : str) (w : world) : world :=
  mk_world (stdin w) (stdout w ++ [text ++ [LF]]) (effects w).

(** [input(prompt)]: the prompt is written, and the next line comes back
    without its newline. *)
Definition input (prompt : str) (w : world) : result str :=
  let out := stdout w ++ [prompt] in
  match stdin w with
  | [] => Abort EOFError (mk_world [] out (effects w))
  | line :: rest => Done line (mk_world rest out (effects w))
  end.

Fixpoint str_eqb (a b : str) : bool :=
  match a, b with
  | [], [] => true
  | x :: a', y :: b' => (x =? y) && str_eqb a' b'
  | _, _ => false
  end.

(** [x in xs] for strings. *)
Definition str_in (x : str) (xs : list str) : bool := existsb (str_eqb x) xs.

(** [str(n)] for an integer. *)
Definition str_of_int (n : Z) : str :=
  py (DecimalString.NilZero.string_of_int (Z.to_int n)).

Definition actions : list (str * str) :=
  [(py "a", py "Accept suggestion");
   (py "d", py "Delete report");
   (py "k", py "Keep original");
   (py "r", py "Reclassify");
   (py "s", py "Skip")].

Definition classifications : list str :=
  [py "COMMUNITY"; py "FC"; py "FLUFF"; py "NORMAL"; py "PHISH";
   py "RMT_C"; py "RMT_G"; py "RP"; py "STATIC"; py "STATIC_SUB"; py "TRADE"].

Definition display_item (item : processed) (w : world) : world :=
  let w := print (repeat 61 40) w in
  let w := print (py "Sender: " ++ sender item) w in
  let w := print (py "Content: " ++ content item) w in
  let w := print (py "Type: " ++ str_of_int (type item)) w in
  let w := print (py "Original: " ++ reason item) w in
  let w := print (py "Suggested: " ++ suggested_classification item) w in
  print (repeat 61 40) w.

Definition write_to_csv (classification : str) (message_type : Z)
    (content : str) (w : world) : world :=
  mk_world (stdin w) (stdout w)
           (effects w ++ [CsvRow classification message_type content]).

Section Review.

Variable REPLACEMENTS : list (str * str).
Variable b64decode : bytes -> option bytes.
Variable int_of_str : str -> option Z.

(** [str.lower] and [str.isdigit]. *)
Variable lower : str -> str.
Variable isdigit : str -> bool.

(** The key a KeyError of [process_item] names, as [print] shows it. *)
Variable missing_key : report -> str.

(** [dynamodb.delete_item] after the effects so far: [None] when it
    returns, the text of the exception when it raises one. *)
Variable delete_item : list effect -> str -> option str.

(** The [while True] loop of [prompt_action]. *)
Fixpoint prompt_action_loop (fuel : nat) (w : world) : result str :=
  match fuel with
  | O => Abort NoFuel w
  | S fuel' =>
      rbind (input (py "Enter your choice: ") w) (fun line w =>
        let choice := lower (strip line) in
        if str_in choice (map fst actions) then Done choice w
        else prompt_action_loop fuel'
               (print (py "Invalid choice. Please try again.") w))
  end.

(** Every round of the loop takes one line, so one round more than there
    are lines is enough. *)
Definition prompt_action (w : world) : result str :=
  let w := print (py "Choose an action:") w in
  let w := fold_left (fun w entry =>
                        print (py "  " ++ fst entry ++ py ": " ++ snd entry) w)
                     actions w in
  prompt_action_loop (S (length (stdin w))) w.

(** The [while True] loop of [prompt_reclassify]. *)
Fixpoint prompt_reclassify_loop (fuel : nat) (w : world) : result str :=
  match fuel with
  | O => Abort NoFuel w
  | S fuel' =>
      rbind (input (py "Enter your choice (number): ") w) (fun line w =>
        let choice := strip line in
        let again :=
          prompt_reclassify_loop fuel'
            (print (py "Invalid choice. Please try again.") w) in
        if isdigit choice then
          match int_of_str choice with
          | None => Abort (Exception ValueError) w
          | Some n =>
              if (1 <=? n) && (n <=? Z.of_nat (length classifications)) then
                match classifications !! Z.to_nat (n - 1) with
                | Some classification => Done classification w
                | None => Abort (Exception IndexError) w
                end
              else again
          end
        else again)
  end.

Definition prompt_reclassify (w : world) : result str :=
  let w := print (py "Choose a new classification:") w in
  let w := fold_left (fun w entry =>
                        print (py "  " ++ str_of_int (Z.of_nat (fst entry))
                               ++ py ": " ++ snd entry) w)
                     (zip (seq 1 (length classifications)) classifications)
                     w in
  prompt_reclassify_loop (S (length (stdin w))) w.

Definition delete_report (report_id : str) (w : world) : world :=
  let w' := mk_world (stdin w) (stdout w)
                     (effects w ++ [DeleteItem report_id]) in
  match delete_item (effects w) report_id with
  | None => print (py "Deleted report with ID: " ++ report_id) w'
  | Some e =>
      print (py "Failed to delete report with ID: " ++ report_id
             ++ py ". Error: " ++ e) w'
  end.

(** The body of [for item in items] in [review_reports]. *)
Definition review_item (auto_accept : bool) (item : report) (w : world)
    : result unit :=
  match process_item REPLACEMENTS b64decode int_of_str item with
  | Raise e => Abort (Exception e) w
  | OutOfFuel => Abort NoFuel w
  | Ok None =>
      Done tt (print (py "Missing field in item: " ++ missing_key item) w)
  | Ok (Some processed) =>
      if auto_accept then
        let classification := suggested_classification processed in
        let message_type := type processed in
        let w := write_to_csv classification message_type
                   (content processed) w in
        Done tt (delete_report (id processed) w)
      else
        let w := display_item processed w in
        rbind (prompt_action w) (fun action w =>
          if str_eqb action (py "s") then Done tt w
          else if str_eqb action (py "d") then
            Done tt (delete_report (id processed) w)
          else if str_in action [py "a"; py "k"] then
            let classification :=
              if str_eqb action (py "a")
              then suggested_classification processed
              else reason processed in
            let message_type := type processed in
            let w := write_to_csv classification message_type
                       (content processed) w in
            Done tt (delete_report (id processed) w)
          else if str_eqb action (py "r") then
            rbind (prompt_reclassify w) (fun classification w =>
              let message_type := type processed in
              let w := write_to_csv classification message_type
                         (content processed) w in
              Done tt (delete_report (id processed) w))
          else Done tt w)
  end.

(** [for item in items: ...] *)
Fixpoint review_items (auto_accept : bool) (items : list report) (w : world)
    : result unit :=
  match items with
  | [] => Done tt w
  | item :: items' =>
      rbind (review_item auto_accept item w) (fun _ w =>
        review_items auto_accept items' w)
  end.

End Review.

(** The world a run ends in. *)
Definition final_world {A} (r : result A) : world :=
  match r with
  | Done _ w => w
  | Abort _ w => w
  end.

(** A typed line [prompt_action] takes. *)
Definition accepted (lower : str -> str) (line : str) : bool :=
  str_in (lower (strip line)) (map fst actions).

(** A typed line [prompt_reclassify] takes as the number [n], one it turns
    down, and one on which [int] raises. *)
Definition chosen (int_of_str : str -> option Z) (isdigit : str -> bool)
    (line : str) (n : Z) : Prop :=
  isdigit (strip line) = true /\ int_of_str (strip line) = Some n
  /\ 1 <= n <= 11.

Definition turned_down (int_of_str : str -> option Z) (isdigit : str -> bool)
    (line : str) : Prop :=
  isdigit (strip line) = false
  \/ exists n, int_of_str (strip line) = Some n /\ ~ 1 <= n <= 11.

Definition crashing (int_of_str : str -> option Z) (isdigit : str -> bool)
    (line : str) : Prop :=
  isdigit (strip line) = true /\ int_of_str (strip line) = None.

(** What handling one report whose dictionary is [q] may add to the
    effects: nothing, the delete request for it, or a row with its type
    and content followed by the delete request for it. *)
Definition caused_by (q : processed) (new : list effect) : Prop :=
  new = []
  \/ new = [DeleteItem (id q)]
  \/ exists classification,
      (classification = suggested_classification q
       \/ classification = reason q
       \/ classification ∈ classifications)
      /\ new = [CsvRow classification (type q) (content q);
                DeleteItem (id q)].

(** Effects in which every row is directly followed by a delete request. *)
Inductive paired : list effect -> Prop :=
| paired_nil : paired []
| paired_delete report_id rest :
    paired rest -> paired (DeleteItem report_id :: rest)
| paired_row classification message_type content report_id rest :
    paired rest ->
    paired (CsvRow classification message_type content
            :: DeleteItem report_id :: rest).

(** The effects of the reports of a batch under [auto_accept], up to the
    first report on which [process] raises. *)
Fixpoint auto_effects (process : report -> outcome (option processed))
    (items : list report) : list effect :=
  match items with
  | [] => []
  | item :: items' =>
      match process item with
      | Ok (Some q) =>
          CsvRow (suggested_classification q) (type q) (content q)
          :: DeleteItem (id q) :: auto_effects process items'
      | Ok None => auto_effects process items'
      | _ => []
      end
  end.

(** Stand-ins for a session: ASCII lower-casing, ASCII digits, a table
    that deletes whatever it is asked to. *)
Definition sample_lower (s : str) : str :=
  map (fun c => if (65 <=? c) && (c <=? 90) then c + 32 else c) s.

Definition sample_isdigit (s : str) : bool :=
  negb (length s =? 0)%nat && forallb (fun c => (48 <=? c) && (c <=? 57)) s.

Definition sample_missing_key (_ : report) : str := py "'sender'".

Definition sample_delete_item (_ : list effect) (_ : str) : option str := None.

(** * Properties *)

(** ** The cursor *)

Section Cursor.

Implicit Types (data : bytes) (pos : nat) (cursor : BytesIO.t).

Lemma read_one_run {B} data pos (k : bytes -> BytesIO.M B) :
  (bs <- read 1 ;; k bs) (BytesIO.mk data pos) =
  match data !! pos with
  | Some b => k [b] (BytesIO.mk data (S pos))
  | None => k [] (BytesIO.mk data pos)
  end.
Proof.
  unfold BytesIO.bind, read, BytesIO.remaining. simpl.
  change (Z.to_nat 1) with 1%nat.
  destruct (data !! pos) as [b|] eqn:Hb.
  - rewrite (drop_S _ _ _ Hb). simpl. rewrite take_0.
    simpl. by rewrite Nat.add_1_r.
  - rewrite drop_ge by (by apply lookup_ge_None). simpl.
    by rewrite Nat.add_0_r.
Qed.

(** [cursor.read(1)[0]] *)
Lemma read_byte_run {B} data pos (k : byte -> BytesIO.M B) :
  (bs <- read 1 ;; b <- index0 bs ;; k b) (BytesIO.mk data pos) =
  match data !! pos with
  | Some b => k b (BytesIO.mk data (S pos))
  | None => Raise IndexError
  end.
Proof. rewrite read_one_run. by destruct (data !! pos). Qed.

Lemma read_run {B} size data pos (k : bytes -> BytesIO.M B) :
  (bs <- read size ;; k bs) (BytesIO.mk data pos) =
  let chunk := if size <? 0 then drop pos data
               else take (Z.to_nat size) (drop pos data) in
  k chunk (BytesIO.mk data (pos + length chunk)).
Proof. reflexivity. Qed.

End Cursor.

(** ** get_int *)

Lemma byte_int_range (b : byte) : 0 <= byte_int b < 256.
Proof.
  unfold byte_int. pose proof (Byte.to_N_bounded b). lia.
Qed.

Lemma byte_int_inj (a b : byte) : byte_int a = byte_int b -> a = b.
Proof.
  unfold byte_int. intros H. apply N2Z.inj in H.
  pose proof (Byte.of_to_N a) as Ha. rewrite H, Byte.of_to_N in Ha.
  congruence.
Qed.

Lemma get_int_step_run {B} (p : Z) (i : nat) (result data : bytes)
    (pos : nat) (k : bytes -> BytesIO.M B) :
  (s <- get_int_step p i result ;; k s) (BytesIO.mk data pos) =
  if negb (Z.land p (Z.shiftl 1 (Z.of_nat i)) =? 0) then
    match data !! pos with
    | Some b => k (<[(3 - i)%nat := b]> result) (BytesIO.mk data (S pos))
    | None => Raise IndexError
    end
  else k result (BytesIO.mk data pos).
Proof.
  unfold get_int_step.
  destruct (negb _); [|reflexivity].
  unfold BytesIO.bind at 1. rewrite read_byte_run.
  by destruct (data !! pos).
Qed.

Ltac eval_rank :=
  repeat match goal with
         | |- context [rank ?p ?i] =>
             let v := eval vm_compute in (rank p i) in
             change (rank p i) with v
         end.

Ltac eval_rank_in H :=
  repeat match type of H with
         | context [rank ?p ?i] =>
             let v := eval vm_compute in (rank p i) in
             change (rank p i) with v in H
         end.

(** Closes a goal [data !! e = Some b] (or a trivial one) from a hypothesis
    about the same position written differently. *)
Ltac find_byte :=
  first
    [ reflexivity
    | match goal with
      | H : ?d !! ?e' = Some ?b |- ?d !! ?e = Some ?b =>
          replace e with e' by lia; exact H
      | H : ?d !! ?e' = Some ?b |- Some ?b = ?d !! ?e =>
          replace e with e' by lia; symmetry; exact H
      end ].

(** One iteration of the loop of [get_int] at a known mask: evaluates the
    bit test, and reads the byte the buffer is known to hold. *)
Ltac get_int_step_tac :=
  rewrite get_int_step_run;
  match goal with
  | |- context [negb ?t] =>
      let v := eval vm_compute in (negb t) in
      change (negb t) with v; cbv iota
  end;
  try match goal with
      | |- context [match ?d !! ?i with _ => _ end] =>
          let Hb := fresh "Hb" in
          destruct (d !! i) eqn:Hb;
          [| exfalso; apply lookup_ge_None in Hb; lia ]
      end.

Section GetInt.

Implicit Types (data : bytes) (pos : nat) (p : Z).

Lemma mask_cases p :
  0 <= p < 16 ->
  p = 0 \/ p = 1 \/ p = 2 \/ p = 3 \/ p = 4 \/ p = 5 \/ p = 6 \/ p = 7 \/
  p = 8 \/ p = 9 \/ p = 10 \/ p = 11 \/ p = 12 \/ p = 13 \/ p = 14 \/ p = 15.
Proof. lia. Qed.

Lemma mask_range x : 0 <= Z.land x 0xF < 16.
Proof.
  change 0xF with (Z.ones 4). rewrite Z.land_ones by lia.
  apply Z.mod_pos_bound. reflexivity.
Qed.

(** The loop of [get_int] on a buffer that holds every byte the mask
    asks for. *)
Lemma get_int_buffer_run p data pos :
  0 <= p < 16 ->
  (pos + rank p 4 <= length data)%nat ->
  exists buf : bytes,
    for_each (seq 0 4) (get_int_step p) (replicate 4 x00)
      (BytesIO.mk data pos)
    = Ok (buf, BytesIO.mk data (pos + rank p 4))
    /\ length buf = 4%nat
    /\ forall i : nat, (i < 4)%nat ->
         buf !! (3 - i)%nat =
         if Z.testbit p (Z.of_nat i) then data !! (pos + rank p i)%nat
         else Some x00.
Proof.
  intros Hp Hlen.
  destruct (mask_cases p Hp) as
    [->|[->|[->|[->|[->|[->|[->|[->|[->|[->|[->|[->|[->|[->|[->| ->]]]]]]]]]]]]]]];
    eval_rank_in Hlen; cbn [for_each seq];
    repeat get_int_step_tac;
    (eexists; split;
     [ unfold ret; eval_rank; do 3 f_equal; lia
     | split; [reflexivity|];
       intros i Hi; destruct i as [|[|[|[|i]]]]; try lia;
       eval_rank;
       match goal with
       | |- context [Z.testbit ?a ?b] =>
           let v := eval vm_compute in (Z.testbit a b) in
           change (Z.testbit a b) with v; cbv iota
       end;
       cbn; find_byte ]).
Qed.

(** The loop of [get_int] on a buffer that ends before the last byte the
    mask asks for. *)
Lemma get_int_buffer_truncated p data pos :
  0 <= p < 16 ->
  (pos <= length data < pos + rank p 4)%nat ->
  for_each (seq 0 4) (get_int_step p) (replicate 4 x00)
    (BytesIO.mk data pos)
  = Raise IndexError.
Proof.
  intros Hp Hlen.
  destruct (mask_cases p Hp) as
    [->|[->|[->|[->|[->|[->|[->|[->|[->|[->|[->|[->|[->|[->|[->| ->]]]]]]]]]]]]]]];
    eval_rank_in Hlen; try lia; cbn [for_each seq];
    repeat (rewrite get_int_step_run;
            match goal with
            | |- context [negb ?t] =>
                let v := eval vm_compute in (negb t) in
                change (negb t) with v; cbv iota
            end;
            try match goal with
                | |- context [match ?d !! ?i with _ => _ end] =>
                    let Hb := fresh "Hb" in
                    destruct (d !! i) eqn:Hb;
                    [apply lookup_lt_Some in Hb | reflexivity]
                end);
    exfalso; lia.
Qed.

Lemma get_int_run data pos :
  get_int (BytesIO.mk data pos) =
  match data !! pos with
  | None => Raise IndexError
  | Some m =>
      if byte_int m <? 0xD0 then Ok (byte_int m - 1, BytesIO.mk data (S pos))
      else
        match get_int_buffer (byte_int m) (BytesIO.mk data (S pos)) with
        | Ok (result, cursor) => Ok (int_from_bytes_little result, cursor)
        | Raise e => Raise e
        | OutOfFuel => OutOfFuel
        end
  end.
Proof.
  unfold get_int. rewrite read_byte_run.
  destruct (data !! pos) as [m|]; [|reflexivity].
  cbv zeta. destruct (byte_int m <? 208); [reflexivity|].
  unfold BytesIO.bind.
  by destruct (get_int_buffer _ _) as [[result cursor]| |].
Qed.

End GetInt.

Lemma int_from_bytes_little_range (bs : bytes) :
  0 <= int_from_bytes_little bs < 256 ^ Z.of_nat (length bs).
Proof.
  induction bs as [|b bs IH].
  - cbn. lia.
  - cbn [int_from_bytes_little fold_right length].
    fold (int_from_bytes_little bs).
    rewrite Nat2Z.inj_succ, Z.pow_succ_r by lia.
    pose proof (byte_int_range b). lia.
Qed.

Lemma present_byte_lookup (p : Z) (data : bytes) (pos i : nat) (b : byte) :
  Some b = (if Z.testbit p (Z.of_nat i) then data !! (pos + rank p i)%nat
            else Some x00) ->
  byte_int b = present_byte p data pos i.
Proof.
  unfold present_byte. destruct (Z.testbit p (Z.of_nat i)).
  - by intros <-.
  - by intros [= ->].
Qed.

(** C2. A marker byte [m] below 0xD0 is the whole encoding: [get_int] reads
    that one byte, leaves the cursor just behind it and returns [m - 1], a
    value between -1 (marker 0x00) and 206 (marker 0xCF). *)
Theorem get_int_small (data : bytes) (pos : nat) (m : byte) :
  data !! pos = Some m ->
  byte_int m < 0xD0 ->
  get_int (BytesIO.mk data pos)
  = Ok (byte_int m - 1, BytesIO.mk data (S pos))
  /\ -1 <= byte_int m - 1 <= 206.
Proof.
  intros Hm Hlt. split.
  - rewrite get_int_run, Hm.
    by destruct (Z.ltb_spec (byte_int m) 0xD0); [|lia].
  - pose proof (byte_int_range m). lia.
Qed.

(** The two boundary markers: 0x00 decodes to -1 and 0xCF to 206, each
    with one byte consumed. *)
Lemma get_int_small_witness :
  get_int (BytesIO.mk [x00] 0) = Ok (-1, BytesIO.mk [x00] 1)
  /\ get_int (BytesIO.mk [x41; xcf; x42] 1)
     = Ok (206, BytesIO.mk [x41; xcf; x42] 2).
Proof.
  split.
  - apply (get_int_small [x00] 0 x00); [reflexivity | vm_compute; reflexivity].
  - apply (get_int_small [x41; xcf; x42] 1 xcf);
      [reflexivity | vm_compute; reflexivity].
Defined.

(** C1. A marker byte [m >= 0xD0] carries the presence mask
    [p = (m + 1) & 0xF].  On a buffer that holds the bytes the mask asks
    for, the loop of [get_int] fills a zeroed four-byte buffer: for every
    bit [i] of [p] that is set, offset [3 - i] receives the byte found
    [rank p i] places behind the marker (the bytes are taken one per set
    bit, in ascending bit order), and the other offsets stay zero.  The
    cursor ends [rank p 4] bytes behind the marker and [get_int] returns
    the buffer read as an unsigned little-endian 32-bit integer, the byte
    of bit 0 being the most significant one.  On a buffer that ends before
    the last of these bytes [get_int] raises IndexError, and with [p = 0]
    it reads the marker alone and returns 0. *)
Theorem get_int_large (data : bytes) (pos : nat) (m : byte) :
  data !! pos = Some m ->
  0xD0 <= byte_int m ->
  let p := Z.land (byte_int m + 1) 0xF in
  ((S pos + rank p 4 <= length data)%nat ->
   exists buf : bytes,
     get_int_buffer (byte_int m) (BytesIO.mk data (S pos))
     = Ok (buf, BytesIO.mk data (S pos + rank p 4))
     /\ length buf = 4%nat
     /\ (forall i : nat, (i < 4)%nat ->
           buf !! (3 - i)%nat =
           if Z.testbit p (Z.of_nat i) then data !! (S pos + rank p i)%nat
           else Some x00)
     /\ get_int (BytesIO.mk data pos)
        = Ok (int_from_bytes_little buf, BytesIO.mk data (S pos + rank p 4))
     /\ int_from_bytes_little buf
        = present_byte p data (S pos) 3
          + 256 * (present_byte p data (S pos) 2
                   + 256 * (present_byte p data (S pos) 1
                            + 256 * present_byte p data (S pos) 0))
     /\ 0 <= int_from_bytes_little buf < 2 ^ 32)
  /\ ((length data < S pos + rank p 4)%nat ->
      get_int (BytesIO.mk data pos) = Raise IndexError)
  /\ (p = 0 ->
      get_int (BytesIO.mk data pos) = Ok (0, BytesIO.mk data (S pos))).
Proof.
  intros Hm Hge p.
  pose proof (lookup_lt_Some _ _ _ Hm) as Hpos.
  assert (Hrun : get_int (BytesIO.mk data pos)
                 = match for_each (seq 0 4) (get_int_step p)
                           (replicate 4 x00) (BytesIO.mk data (S pos)) with
                   | Ok (result, cursor) =>
                       Ok (int_from_bytes_little result, cursor)
                   | Raise e => Raise e
                   | OutOfFuel => OutOfFuel
                   end).
  { rewrite get_int_run, Hm.
    by destruct (Z.ltb_spec (byte_int m) 0xD0); [lia|]. }
  assert (Hfit : (S pos + rank p 4 <= length data)%nat ->
            exists buf : bytes,
              get_int_buffer (byte_int m) (BytesIO.mk data (S pos))
              = Ok (buf, BytesIO.mk data (S pos + rank p 4))
              /\ length buf = 4%nat
              /\ (forall i : nat, (i < 4)%nat ->
                    buf !! (3 - i)%nat =
                    if Z.testbit p (Z.of_nat i)
                    then data !! (S pos + rank p i)%nat
                    else Some x00)
              /\ get_int (BytesIO.mk data pos)
                 = Ok (int_from_bytes_little buf,
                       BytesIO.mk data (S pos + rank p 4))).
  { intros Hlen.
    destruct (get_int_buffer_run p data (S pos) (mask_range _) Hlen)
      as (buf & Hbuf & Hlength & Hat).
    exists buf. split_and!; [exact Hbuf|done|done|by rewrite Hrun, Hbuf]. }
  split_and!.
  - intros Hlen. destruct (Hfit Hlen) as (buf & Hbuf & Hlength & Hat & Hget).
    exists buf. split_and!; try assumption.
    + destruct buf as [|b0 [|b1 [|b2 [|b3 [|]]]]]; try discriminate.
      cbn [int_from_bytes_little fold_right].
      rewrite (present_byte_lookup p data (S pos) 3 b0 (Hat 3%nat ltac:(lia))).
      rewrite (present_byte_lookup p data (S pos) 2 b1 (Hat 2%nat ltac:(lia))).
      rewrite (present_byte_lookup p data (S pos) 1 b2 (Hat 1%nat ltac:(lia))).
      rewrite (present_byte_lookup p data (S pos) 0 b3 (Hat 0%nat ltac:(lia))).
      lia.
    + apply int_from_bytes_little_range.
    + pose proof (int_from_bytes_little_range buf) as H.
      rewrite Hlength in H. exact (proj2 H).
  - intros Hshort. rewrite Hrun.
    rewrite get_int_buffer_truncated; [done|apply mask_range|lia].
  - intros Hp0. clearbody p. subst p.
    destruct (Hfit ltac:(change (rank 0 4) with 0%nat; lia))
      as (buf & _ & Hlength & Hat & Hget).
    rewrite Hget. eval_rank.
    destruct buf as [|b0 [|b1 [|b2 [|b3 [|]]]]]; try discriminate.
    pose proof (Hat 0%nat ltac:(lia)) as H3.
    pose proof (Hat 1%nat ltac:(lia)) as H2.
    pose proof (Hat 2%nat ltac:(lia)) as H1.
    pose proof (Hat 3%nat ltac:(lia)) as H0.
    cbn in H0, H1, H2, H3.
    injection H0 as ->. injection H1 as ->.
    injection H2 as ->. injection H3 as ->.
    by rewrite Nat.add_0_r.
Qed.

(** The first witness has mask 3 (two bytes follow the marker, for offsets
    3 and 2), the second mask 0 (nothing follows the marker that belongs
    to the integer), the third mask 3 again with one byte missing. *)
Lemma get_int_large_witness :
  get_int (BytesIO.mk [xf2; x01; x02; x03] 0)
  = Ok (16908288, BytesIO.mk [xf2; x01; x02; x03] 3)
  /\ get_int (BytesIO.mk [xdf; x07] 0) = Ok (0, BytesIO.mk [xdf; x07] 1)
  /\ get_int (BytesIO.mk [xf2; x01] 0) = Raise IndexError.
Proof.
  split_and!.
  - destruct (get_int_large [xf2; x01; x02; x03] 0 xf2 eq_refl
                ltac:(by vm_compute)) as (Hfit & _ & _).
    destruct (Hfit ltac:(vm_compute; lia))
      as (buf & _ & _ & _ & Hget & Hvalue & _).
    rewrite Hget, Hvalue. reflexivity.
  - destruct (get_int_large [xdf; x07] 0 xdf eq_refl ltac:(by vm_compute))
      as (_ & _ & Hzero).
    apply Hzero. reflexivity.
  - destruct (get_int_large [xf2; x01] 0 xf2 eq_refl ltac:(by vm_compute))
      as (_ & Hshort & _).
    apply Hshort. vm_compute. lia.
Defined.

(** [get_int] either raises IndexError or returns with the cursor moved
    forward inside the same buffer. *)
Lemma get_int_cases (data : bytes) (pos : nat) :
  get_int (BytesIO.mk data pos) = Raise IndexError
  \/ exists (n : Z) (pos1 : nat),
      get_int (BytesIO.mk data pos) = Ok (n, BytesIO.mk data pos1)
      /\ (pos < pos1 <= length data)%nat /\ -1 <= n < 2 ^ 32.
Proof.
  rewrite get_int_run.
  destruct (data !! pos) as [m|] eqn:Hm; [|by left].
  pose proof (lookup_lt_Some _ _ _ Hm) as Hpos.
  pose proof (byte_int_range m) as Hm_range.
  destruct (Z.ltb_spec (byte_int m) 0xD0) as [Hlt|Hge].
  - right. exists (byte_int m - 1), (S pos). split_and!; [done|lia|lia|lia|lia].
  - unfold get_int_buffer. cbv zeta.
    set (p := Z.land (byte_int m + 1) 0xF).
    destruct (le_lt_dec (S pos + rank p 4) (length data)) as [Hfit|Hshort].
    + right.
      destruct (get_int_buffer_run p data (S pos) (mask_range _) Hfit)
        as (buf & -> & Hlength & _).
      pose proof (int_from_bytes_little_range buf) as Hrange.
      rewrite Hlength in Hrange.
      exists (int_from_bytes_little buf), (S pos + rank p 4)%nat.
      split_and!; [done|lia|lia|lia|exact (proj2 Hrange)].
    + left.
      rewrite get_int_buffer_truncated; [done|apply mask_range|lia].
Qed.

(** ** The loop of get_text *)

Section Scanner.

Implicit Types (data result : bytes) (pos : nat) (cursor : BytesIO.t).

(** A literal byte is appended and the cursor moves one byte. *)
Lemma get_text_body_literal result data pos b :
  data !! pos = Some b ->
  byte_int b <> START ->
  get_text_body result (BytesIO.mk data pos)
  = Ok (result ++ [b], BytesIO.mk data (S pos)).
Proof.
  intros Hb Hne. unfold get_text_body. rewrite read_byte_run, Hb.
  by destruct (Z.eqb_spec (byte_int b) START).
Qed.

Lemma get_text_body_end result data pos :
  data !! pos = None ->
  get_text_body result (BytesIO.mk data pos) = Raise IndexError.
Proof.
  intros Hb. unfold get_text_body. by rewrite read_byte_run, Hb.
Qed.

(** A START byte whose length cannot be decoded. *)
Lemma get_text_body_block_raise result data pos b :
  data !! pos = Some b ->
  byte_int b = START ->
  get_int (BytesIO.mk data (S (S pos))) = Raise IndexError ->
  get_text_body result (BytesIO.mk data pos) = Raise IndexError.
Proof.
  intros Hb Hst Hint. unfold get_text_body. rewrite read_byte_run, Hb.
  destruct (Z.eqb_spec (byte_int b) START) as [_|]; [|done].
  rewrite read_one_run.
  destruct (data !! S pos) eqn:Hkind.
  - unfold BytesIO.bind at 1. by rewrite Hint.
  - unfold BytesIO.bind at 1. rewrite get_int_run.
    by rewrite Hkind.
Qed.

(** A START byte whose length decodes to [n]: the skip and the END test. *)
Lemma get_text_body_block result data pos b n pos1 :
  data !! pos = Some b ->
  byte_int b = START ->
  get_int (BytesIO.mk data (S (S pos))) = Ok (n, BytesIO.mk data pos1) ->
  get_text_body result (BytesIO.mk data pos) =
  let pos2 := (pos1 + read_length n data pos1)%nat in
  match data !! pos2 with
  | None => Raise IndexError
  | Some e =>
      if byte_int e =? END then Ok (result, BytesIO.mk data (S pos2))
      else Raise AssertionError
  end.
Proof.
  intros Hb Hst Hint. unfold get_text_body. rewrite read_byte_run, Hb.
  destruct (Z.eqb_spec (byte_int b) START) as [_|]; [|done].
  assert (is_Some (data !! S (S pos))) as [m Hm].
  { rewrite get_int_run in Hint. by destruct (data !! S (S pos)). }
  assert (is_Some (data !! S pos)) as [k Hk].
  { apply lookup_lt_is_Some. apply lookup_lt_Some in Hm. lia. }
  rewrite read_one_run, Hk.
  unfold BytesIO.bind at 1. rewrite Hint.
  rewrite read_run. cbv zeta.
  replace (length (if n <? 0 then drop pos1 data
                   else take (Z.to_nat n) (drop pos1 data)))
    with (read_length n data pos1).
  2: { unfold read_length. destruct (n <? 0).
       - by rewrite length_drop.
       - by rewrite length_take, length_drop. }
  rewrite read_byte_run.
  destruct (data !! (pos1 + read_length n data pos1)%nat) as [e|];
    [|reflexivity].
  by destruct (byte_int e =? END).
Qed.

(** What one iteration can do: raise one of two exceptions, or leave the
    cursor strictly further in the same buffer, the accumulator unchanged
    (a block was skipped) or one byte longer (a literal). *)
Lemma get_text_body_cases result data pos :
  get_text_body result (BytesIO.mk data pos) = Raise IndexError
  \/ get_text_body result (BytesIO.mk data pos) = Raise AssertionError
  \/ exists result' pos',
      get_text_body result (BytesIO.mk data pos)
      = Ok (result', BytesIO.mk data pos')
      /\ (pos < pos' <= length data)%nat
      /\ (result' = result \/ exists b, result' = result ++ [b]).
Proof.
  destruct (data !! pos) as [b|] eqn:Hb.
  2: { left. by apply get_text_body_end. }
  pose proof (lookup_lt_Some _ _ _ Hb) as Hpos.
  destruct (Z.eq_dec (byte_int b) START) as [Hst|Hne].
  - destruct (get_int_cases data (S (S pos)))
      as [Hint|(n & pos1 & Hint & Hpos1 & _)].
    + left. by eapply get_text_body_block_raise.
    + rewrite (get_text_body_block result data pos b n pos1 Hb Hst Hint).
      cbv zeta.
      destruct (data !! (pos1 + read_length n data pos1)%nat)
        as [e|] eqn:He; [|by left].
      apply lookup_lt_Some in He.
      destruct (byte_int e =? END); [|by right; left].
      right; right. eexists _, _. split; [reflexivity|].
      split; [lia|by left].
  - right; right. exists (result ++ [b]), (S pos).
    split; [by apply get_text_body_literal|].
    split; [lia|right; by exists b].
Qed.

(** The loop never runs out of a budget that covers the bytes left, and
    does the same on every such budget. *)
Lemma get_text_loop_fuel data fuel1 :
  forall fuel2 result pos,
    (length data <= pos + fuel1)%nat ->
    (length data <= pos + fuel2)%nat ->
    get_text_loop fuel1 data result (BytesIO.mk data pos)
    = get_text_loop fuel2 data result (BytesIO.mk data pos)
    /\ get_text_loop fuel1 data result (BytesIO.mk data pos) <> OutOfFuel.
Proof.
  induction fuel1 as [|fuel1 IH]; intros fuel2 result pos H1 H2.
  - destruct fuel2; cbn [get_text_loop BytesIO.tell];
      destruct (Nat.ltb_spec pos (length data)); try lia; done.
  - destruct fuel2; cbn [get_text_loop BytesIO.tell];
      destruct (Nat.ltb_spec pos (length data)); try lia; try done.
    destruct (get_text_body_cases result data pos)
      as [->|[->|(result' & pos' & -> & Hpos' & _)]]; try done.
    apply IH; lia.
Qed.

Lemma reaches_inv data result cursor :
  reaches data result cursor ->
  BytesIO.getvalue cursor = data
  /\ (BytesIO.tell cursor <= length data)%nat.
Proof.
  induction 1 as [|result cursor result' cursor' _ [Hdata Hle] Hlt Hbody].
  - cbn. split; [done|lia].
  - destruct cursor as [data' pos]. cbn in Hdata, Hle, Hlt. subst data'.
    destruct (get_text_body_cases result data pos)
      as [H|[H|(r & pos' & H & Hpos' & _)]];
      rewrite H in Hbody; try discriminate.
    injection Hbody as <- <-. cbn. split; [done|lia].
Qed.

(** From a reached state the loop goes on to the result of the whole
    scan. *)
Lemma reaches_loop data result pos :
  reaches data result (BytesIO.mk data pos) ->
  get_text_loop (length data) data [] (BytesIO.mk data 0)
  = get_text_loop (length data - pos) data result (BytesIO.mk data pos).
Proof.
  remember (BytesIO.mk data pos) as cursor eqn:Hc.
  intros Hreach. revert pos Hc.
  induction Hreach as [|result cursor result' cursor' Hreach IH Hlt Hbody];
    intros pos' Hc.
  - injection Hc as <-. by rewrite Nat.sub_0_r.
  - subst cursor'.
    destruct (reaches_inv _ _ _ Hreach) as [Hdata Hle].
    destruct cursor as [data' pos]. cbn in Hdata, Hle, Hlt. subst data'.
    rewrite (IH pos eq_refl).
    destruct (length data - pos)%nat as [|fuel] eqn:Hfuel; [lia|].
    cbn [get_text_loop BytesIO.tell].
    destruct (Nat.ltb_spec pos (length data)); [|lia].
    rewrite Hbody.
    destruct (get_text_body_cases result data pos)
      as [Hb|[Hb|(r & p' & Hb & Hpos' & _)]];
      rewrite Hb in Hbody; try discriminate.
    injection Hbody as <- <-.
    apply get_text_loop_fuel; lia.
Qed.

(** An exception raised by an iteration that the loop reaches is the
    outcome of [get_text]. *)
Lemma reaches_raise data result pos e :
  reaches data result (BytesIO.mk data pos) ->
  (pos < length data)%nat ->
  get_text_body result (BytesIO.mk data pos) = Raise e ->
  get_text data = Raise e.
Proof.
  intros Hreach Hlt Hbody. unfold get_text, get_text_fuel.
  rewrite (reaches_loop _ _ _ Hreach).
  destruct (length data - pos)%nat as [|fuel] eqn:Hfuel; [lia|].
  cbn [get_text_loop BytesIO.tell].
  destruct (Nat.ltb_spec pos (length data)); [|lia].
  by rewrite Hbody.
Qed.

(** A reached state at the end of the buffer ends the loop. *)
Lemma reaches_done data result :
  reaches data result (BytesIO.mk data (length data)) ->
  get_text data = decode_utf8 result.
Proof.
  intros Hreach. unfold get_text, get_text_fuel.
  rewrite (reaches_loop _ _ _ Hreach), Nat.sub_diag.
  cbn [get_text_loop BytesIO.tell].
  by rewrite Nat.ltb_irrefl.
Qed.

End Scanner.

(** ** get_text: termination, failures and pass-through *)

Lemma byte_int_START (b : byte) : byte_int b = START <-> b = x02.
Proof.
  split; [|by intros ->].
  intros H. by apply byte_int_inj.
Qed.

Lemma byte_int_END (b : byte) : byte_int b = END <-> b = x03.
Proof.
  split; [|by intros ->].
  intros H. by apply byte_int_inj.
Qed.

(** C3. When the loop reaches a START byte, the length behind its kind
    byte decodes to [n >= 0], and the byte [n] places behind the encoded
    length exists but is not END, [get_text] raises AssertionError (the
    specification's FormatError). *)
Theorem missing_end_marker (data result : bytes) (pos : nat)
    (n : Z) (pos1 : nat) (e : byte) :
  reaches data result (BytesIO.mk data pos) ->
  data !! pos = Some x02 ->
  get_int (BytesIO.mk data (S (S pos))) = Ok (n, BytesIO.mk data pos1) ->
  0 <= n ->
  data !! (pos1 + Z.to_nat n)%nat = Some e ->
  e <> x03 ->
  get_text data = Raise AssertionError.
Proof.
  intros Hreach Hstart Hint Hn He Hne.
  apply (reaches_raise data result pos); [done|by eapply lookup_lt_Some|].
  rewrite (get_text_body_block result data pos x02 n pos1 Hstart eq_refl Hint).
  cbv zeta.
  assert (read_length n data pos1 = Z.to_nat n) as ->.
  { unfold read_length. apply lookup_lt_Some in He.
    destruct (Z.ltb_spec n 0); lia. }
  rewrite He.
  destruct (Z.eqb_spec (byte_int e) END) as [Heq|]; [|done].
  by apply byte_int_END in Heq.
Qed.

(** ['H'], then a block of kind 0 whose length 1 is followed by ['B']
    where END belongs. *)
Lemma missing_end_marker_witness :
  get_text [x48; x02; x00; x02; x41; x42] = Raise AssertionError.
Proof.
  apply (missing_end_marker [x48; x02; x00; x02; x41; x42] [x48] 1 1 4 x42).
  - apply (reaches_step _ [] (BytesIO.mk [x48; x02; x00; x02; x41; x42] 0));
      [apply reaches_start | cbn; lia | reflexivity].
  - reflexivity.
  - reflexivity.
  - lia.
  - reflexivity.
  - discriminate.
Defined.

(** C4. When the loop reaches a START byte whose block the buffer does not
    hold in full (the kind byte, the marker or a byte its mask asks for,
    part of the payload, or the END byte is past the end), [get_text]
    raises IndexError (the specification's TruncatedInputError) and so
    returns no string. *)
Theorem truncated_input (data result : bytes) (pos : nat) :
  reaches data result (BytesIO.mk data pos) ->
  data !! pos = Some x02 ->
  truncated_block data pos ->
  get_text data = Raise IndexError
  /\ forall s : str, get_text data <> Ok s.
Proof.
  intros Hreach Hstart Htrunc.
  enough (get_text data = Raise IndexError) as -> by done.
  apply (reaches_raise data result pos); [done|by eapply lookup_lt_Some|].
  destruct Htrunc as [Hlen|Hlen|m Hm Hge Hlen|n pos1 Hint Hlen|n pos1 Hint Hlen].
  - apply (get_text_body_block_raise result data pos x02); [done|done|].
    rewrite get_int_run, lookup_ge_None_2; [done|lia].
  - apply (get_text_body_block_raise result data pos x02); [done|done|].
    rewrite get_int_run, lookup_ge_None_2; [done|lia].
  - apply (get_text_body_block_raise result data pos x02); [done|done|].
    rewrite get_int_run, Hm.
    destruct (Z.ltb_spec (byte_int m) 0xD0); [lia|].
    unfold get_int_buffer. cbv zeta.
    rewrite get_int_buffer_truncated; [done|apply mask_range|].
    apply lookup_lt_Some in Hm. lia.
  - rewrite (get_text_body_block result data pos x02 n pos1 Hstart eq_refl Hint).
    cbv zeta. rewrite lookup_ge_None_2; [done|].
    unfold read_length. destruct (Z.ltb_spec n 0); lia.
  - rewrite (get_text_body_block result data pos x02 n pos1 Hstart eq_refl Hint).
    cbv zeta. rewrite lookup_ge_None_2; [done|].
    unfold read_length.
    destruct (get_int_cases data (S (S pos)))
      as [H|(n' & pos1' & H & Hpos1 & _)]; rewrite H in Hint; [done|].
    injection Hint as -> ->.
    destruct (Z.ltb_spec n 0); lia.
Qed.

(** One buffer for each way of running past the end: no kind byte, no
    marker, a mask (0xF2, two bytes) with one byte behind it, a length of 3
    with two bytes of payload, and a complete payload without END. *)
Lemma truncated_input_witness :
  get_text [x48; x02] = Raise IndexError
  /\ get_text [x02; x00] = Raise IndexError
  /\ get_text [x02; x00; xf2; x01] = Raise IndexError
  /\ get_text [x02; x00; x04; x41; x42] = Raise IndexError
  /\ get_text [x02; x00; x03; x41; x42] = Raise IndexError.
Proof.
  split_and!.
  - apply (truncated_input [x48; x02] [x48] 1).
    + apply (reaches_step _ [] (BytesIO.mk [x48; x02] 0));
        [apply reaches_start | cbn; lia | reflexivity].
    + reflexivity.
    + apply truncated_kind. cbn. lia.
  - apply (truncated_input [x02; x00] [] 0);
      [apply reaches_start | reflexivity |].
    apply truncated_marker. cbn. lia.
  - apply (truncated_input [x02; x00; xf2; x01] [] 0);
      [apply reaches_start | reflexivity |].
    apply (truncated_mask_byte _ _ xf2); [reflexivity | by vm_compute |].
    vm_compute. lia.
  - apply (truncated_input [x02; x00; x04; x41; x42] [] 0);
      [apply reaches_start | reflexivity |].
    apply (truncated_payload _ _ 3 3); [reflexivity | cbn; lia].
  - apply (truncated_input [x02; x00; x03; x41; x42] [] 0);
      [apply reaches_start | reflexivity |].
    apply (truncated_end _ _ 2 3); reflexivity.
Defined.

(** C10. A block whose length marker is 0x00: [get_int] returns -1, the
    skip [cursor.read(-1)] takes everything that is left and puts the
    cursor at the end of the buffer, and the iteration raises IndexError at
    the read of the END byte; a buffer in which the loop reaches such a
    block is never decoded. *)
Theorem zero_length_marker (data result : bytes) (pos : nat) :
  data !! pos = Some x02 ->
  data !! S (S pos) = Some x00 ->
  get_int (BytesIO.mk data (S (S pos)))
  = Ok (-1, BytesIO.mk data (S (S (S pos))))
  /\ read (-1) (BytesIO.mk data (S (S (S pos))))
     = Ok (drop (S (S (S pos))) data, BytesIO.mk data (length data))
  /\ get_text_body result (BytesIO.mk data pos) = Raise IndexError
  /\ (reaches data result (BytesIO.mk data pos) ->
      get_text data = Raise IndexError /\ forall s, get_text data <> Ok s).
Proof.
  intros Hstart Hmarker.
  pose proof (lookup_lt_Some _ _ _ Hmarker) as Hlen.
  assert (Hint : get_int (BytesIO.mk data (S (S pos)))
                 = Ok (-1, BytesIO.mk data (S (S (S pos)))))
    by (by rewrite get_int_run, Hmarker).
  assert (Hbody : get_text_body result (BytesIO.mk data pos)
                  = Raise IndexError).
  { rewrite (get_text_body_block result data pos x02 _ _ Hstart eq_refl Hint).
    cbv zeta. rewrite lookup_ge_None_2; [done|].
    unfold read_length. cbn. lia. }
  split_and!; [done| |done|].
  - unfold read, BytesIO.remaining. cbn.
    rewrite length_drop. do 3 f_equal. lia.
  - intros Hreach.
    enough (get_text data = Raise IndexError) as -> by done.
    apply (reaches_raise data result pos); [done|lia|done].
Qed.

(** A block with marker 0x00 that is otherwise complete (its END byte is
    there) is still rejected. *)
Lemma zero_length_marker_witness :
  get_text [x48; x02; x00; x00; x03; x21] = Raise IndexError.
Proof.
  destruct (zero_length_marker [x48; x02; x00; x00; x03; x21] [x48] 1
              eq_refl eq_refl) as (_ & _ & _ & Hget).
  apply Hget.
  apply (reaches_step _ [] (BytesIO.mk [x48; x02; x00; x00; x03; x21] 0));
    [apply reaches_start | cbn; lia | reflexivity].
Defined.

(** The loop passes over a prefix without START bytes one byte at a time. *)
Lemma reaches_literals (pre rest : bytes) :
  Forall (fun b => b <> x02) pre ->
  reaches (pre ++ rest) pre (BytesIO.mk (pre ++ rest) (length pre)).
Proof.
  revert rest. induction pre as [|b pre IH] using rev_ind; intros rest Hpre.
  - apply reaches_start.
  - apply Forall_app in Hpre as [Hpre Hb].
    rewrite Forall_singleton in Hb.
    specialize (IH (b :: rest) Hpre).
    rewrite <- app_assoc. cbn [app].
    eapply reaches_step; [exact IH| |].
    + cbn. rewrite length_app. cbn. lia.
    + rewrite get_text_body_literal with (b := b).
      * rewrite length_app. cbn. by rewrite Nat.add_1_r.
      * by apply list_lookup_middle.
      * intros H. apply Hb. by apply byte_int_START.
Qed.

(** C5. On a buffer without START bytes the loop of [get_text] collects
    the buffer itself, byte for byte, and [get_text] is its strict UTF-8
    decoding: the decoded text when the bytes are valid UTF-8 and
    UnicodeDecodeError (the specification's EncodingError) exactly when
    they are not. *)
Theorem get_text_block_free (data : bytes) :
  Forall (fun b => b <> x02) data ->
  get_text_loop (length data) data [] (BytesIO.mk data 0) = Ok data
  /\ get_text data = decode_utf8 data
  /\ (forall s : str, get_text data = Ok s <-> utf8_decode data = Some s)
  /\ (get_text data = Raise UnicodeDecodeError <-> utf8_decode data = None).
Proof.
  intros Hfree.
  pose proof (reaches_literals data [] Hfree) as Hreach.
  rewrite app_nil_r in Hreach.
  assert (Hget : get_text data = decode_utf8 data) by by apply reaches_done.
  split_and!.
  - rewrite (reaches_loop _ _ _ Hreach), Nat.sub_diag.
    cbn [get_text_loop BytesIO.tell]. by rewrite Nat.ltb_irrefl.
  - done.
  - intros s. rewrite Hget. unfold decode_utf8.
    destruct (utf8_decode data); split; congruence.
  - rewrite Hget. unfold decode_utf8.
    destruct (utf8_decode data); split; congruence.
Qed.

(** Plain ASCII, a three-byte and a four-byte sequence, and an overlong
    encoding that strict decoding rejects. *)
Lemma get_text_block_free_witness :
  get_text [x48; x69; xe2; x82; xac; xf0; x9f; x98; x80]
  = Ok [72; 105; 8364; 128512]
  /\ get_text [x48; xc0; x80] = Raise UnicodeDecodeError.
Proof.
  split.
  - destruct (get_text_block_free
                [x48; x69; xe2; x82; xac; xf0; x9f; x98; x80])
      as (_ & _ & Hok & _).
    + repeat constructor; discriminate.
    + apply Hok. reflexivity.
  - destruct (get_text_block_free [x48; xc0; x80]) as (_ & _ & _ & Hbad).
    + repeat constructor; discriminate.
    + apply Hbad. reflexivity.
Defined.

(** C6. The seven bytes ['H'], ['i'], 0x02, 0x00, 0x01, 0x03, ['!'] decode
    to "Hi!": the loop takes ['H'] and ['i'] as literals; at the START byte
    the kind byte 0x00 is read and dropped, the marker 0x01 decodes to
    length 0 with one byte consumed, the skip takes no byte, 0x03 passes
    the END test and the accumulator is unchanged; ['!'] is a literal. *)
Theorem get_text_hi_example :
  let data := [x48; x69; x02; x00; x01; x03; x21] in
  get_text data = Ok (py "Hi!")
  /\ get_text_body [] (BytesIO.mk data 0) = Ok ([x48], BytesIO.mk data 1)
  /\ get_text_body [x48] (BytesIO.mk data 1)
     = Ok ([x48; x69], BytesIO.mk data 2)
  /\ read 1 (BytesIO.mk data 3) = Ok ([x00], BytesIO.mk data 4)
  /\ get_int (BytesIO.mk data 4) = Ok (0, BytesIO.mk data 5)
  /\ read 0 (BytesIO.mk data 5) = Ok ([], BytesIO.mk data 5)
  /\ get_text_body [x48; x69] (BytesIO.mk data 2)
     = Ok ([x48; x69], BytesIO.mk data 6)
  /\ get_text_body [x48; x69] (BytesIO.mk data 6)
     = Ok ([x48; x69; x21], BytesIO.mk data 7)
  /\ get_text_loop 7 data [] (BytesIO.mk data 0) = Ok [x48; x69; x21].
Proof. cbv zeta. split_and!; reflexivity. Qed.

(** ** str.replace *)

Section Replace.

Implicit Types (text old new : str).

Lemma starts_with_spec old text :
  starts_with old text = true <-> text = old ++ drop (length old) text.
Proof.
  revert text. induction old as [|o old IH]; intros text.
  - cbn. by rewrite drop_0.
  - destruct text as [|c text]; cbn; [done|].
    rewrite andb_true_iff, IH, Z.eqb_eq. split.
    + by intros [-> <-].
    + intros H. injection H as -> H. done.
Qed.

Lemma replace_from_drop old new text :
  forall skip,
    replace_from skip old new text
    = replace_from 0 old new (drop skip text).
Proof.
  induction text as [|c rest IH]; intros [|skip]; cbn [replace_from drop];
    first [reflexivity | apply IH].
Qed.

(** An occurrence at the front is replaced, and the scan resumes behind
    it. *)
Lemma replace_match o old new rest :
  replace (o :: old ++ rest) (o :: old) new
  = new ++ replace rest (o :: old) new.
Proof.
  unfold replace. cbn [replace_from app].
  assert (starts_with (o :: old) (o :: old ++ rest) = true) as ->.
  { apply starts_with_spec. cbn. by rewrite drop_app_length. }
  f_equal. rewrite replace_from_drop. cbn [length].
  replace (S (length old) - 1)%nat with (length old) by lia.
  by rewrite drop_app_length.
Qed.

(** A character that starts no occurrence is kept. *)
Lemma replace_no_match o old new c rest :
  starts_with (o :: old) (c :: rest) = false ->
  replace (c :: rest) (o :: old) new = c :: replace rest (o :: old) new.
Proof. intros H. unfold replace. cbn [replace_from]. by rewrite H. Qed.

Lemma replace_nil old new : old <> [] -> replace [] old new = [].
Proof. by destruct old. Qed.

(** Replacing a single character is a map. *)
Lemma replace_char text a b :
  replace text [a] [b] = map (fun c => if c =? a then b else c) text.
Proof.
  unfold replace. induction text as [|c rest IH]; [done|].
  cbn [replace_from starts_with map length Nat.sub app].
  rewrite andb_true_r, (Z.eqb_sym a c).
  destruct (c =? a); cbn; by rewrite IH.
Qed.



End Replace.

(** ** str.strip and the line-terminator collapsing *)

Section Strip.

Implicit Types (s text : str) (c : Z).

Lemma lstrip_split s :
  exists ws, s = ws ++ lstrip s /\ Forall (fun c => isspace c = true) ws.
Proof.
  induction s as [|c rest (ws & Hs & Hws)]; [by exists []|].
  cbn [lstrip]. destruct (isspace c) eqn:Hc.
  - exists (c :: ws). split; [cbn; by rewrite <- Hs |by constructor].
  - by exists [].
Qed.

Lemma lstrip_head s c : head (lstrip s) = Some c -> isspace c = false.
Proof.
  induction s as [|d rest IH]; [done|].
  cbn [lstrip]. destruct (isspace d) eqn:Hd; [done|].
  cbn. by intros [= <-].
Qed.

Lemma rstrip_split s :
  exists ws, s = rstrip s ++ ws /\ Forall (fun c => isspace c = true) ws.
Proof.
  destruct (lstrip_split (reverse s)) as (ws & Hs & Hws).
  exists (reverse ws). split.
  - unfold rstrip. rewrite <- reverse_app, <- Hs.
    by rewrite reverse_involutive.
  - by apply Forall_reverse.
Qed.

Lemma rstrip_last s c : last (rstrip s) = Some c -> isspace c = false.
Proof. unfold rstrip. rewrite last_reverse. apply lstrip_head. Qed.

(** The stripped text is a segment of the text, between two runs of
    whitespace. *)
Lemma strip_split s :
  exists ws1 ws2,
    s = ws1 ++ strip s ++ ws2
    /\ Forall (fun c => isspace c = true) ws1
    /\ Forall (fun c => isspace c = true) ws2.
Proof.
  destruct (lstrip_split s) as (ws1 & Hs1 & Hws1).
  destruct (rstrip_split (lstrip s)) as (ws2 & Hs2 & Hws2).
  exists ws1, ws2. unfold strip. by rewrite <- Hs2.
Qed.

(** No whitespace is left at either end. *)
Lemma strip_ends s c :
  (head (strip s) = Some c -> isspace c = false)
  /\ (last (strip s) = Some c -> isspace c = false).
Proof.
  split; [|apply rstrip_last].
  unfold strip. intros Hhead.
  destruct (rstrip_split (lstrip s)) as (ws & Hs & _).
  apply (lstrip_head s). rewrite Hs, head_app. by rewrite Hhead.
Qed.

Lemma strip_elem_of s c : c ∈ strip s -> c ∈ s.
Proof.
  intros Hc. destruct (strip_split s) as (ws1 & ws2 & -> & _).
  rewrite !elem_of_app. auto.
Qed.

(** The three replacements one after the other do what the one-pass
    reading of the rule does. *)
Lemma collapse_single_pass text :
  replace (replace (replace text [CR; LF] [SP]) [CR] [SP]) [LF] [SP]
  = collapse_spec text.
Proof.
  rewrite !replace_char.
  remember (length text) as n eqn:Hn.
  assert (Hle : (length text <= n)%nat) by lia. clear Hn.
  revert text Hle. induction n as [|n IH]; intros text Hle.
  - destruct text; [done|cbn in Hle; lia].
  - destruct text as [|c rest]; [done|]. cbn in Hle.
    cbn [collapse_spec].
    destruct (Z.eqb_spec c CR) as [->|Hc].
    + destruct rest as [|d rest']; [by vm_compute|]. cbn in Hle.
      destruct (Z.eqb_spec d LF) as [->|Hd].
      * change (CR :: LF :: rest') with (CR :: [LF] ++ rest').
        rewrite replace_match. cbn [app map].
        rewrite IH by lia. done.
      * rewrite replace_no_match.
        2: { cbn [starts_with]. rewrite Z.eqb_refl, andb_true_r.
             cbn [andb]. apply Z.eqb_neq. congruence. }
        cbn [map]. rewrite IH by (cbn; lia). done.
    + rewrite replace_no_match.
      2: { cbn [starts_with]. apply andb_false_intro1.
           apply Z.eqb_neq. congruence. }
      cbn [map]. rewrite IH by lia.
      destruct (Z.eqb_spec c CR); [done|].
      by destruct (Z.eqb_spec c LF).
Qed.

Lemma collapse_spec_no_line_end text c :
  c ∈ collapse_spec text -> is_line_end c = false.
Proof.
  remember (length text) as n eqn:Hn.
  assert (Hle : (length text <= n)%nat) by lia. clear Hn.
  revert text Hle. induction n as [|n IH]; intros text Hle.
  - destruct text; [by intros ?%elem_of_nil|cbn in Hle; lia].
  - destruct text as [|d rest]; [by intros ?%elem_of_nil|]. cbn in Hle.
    cbn [collapse_spec].
    destruct (Z.eqb_spec d CR) as [->|Hd].
    + destruct rest as [|d' rest'].
      * by intros ->%list_elem_of_singleton.
      * cbn in Hle.
        destruct (d' =? LF); intros [->|?]%elem_of_cons; try done;
          eapply IH; try eassumption; cbn; lia.
    + destruct (Z.eqb_spec d LF) as [->|Hd'];
        intros [->|?]%elem_of_cons; try done.
      * eapply IH; try eassumption; lia.
      * unfold is_line_end.
        destruct (Z.eqb_spec d CR); [done|].
        by destruct (Z.eqb_spec d LF).
      * eapply IH; try eassumption; lia.
Qed.

(** [collapse_lines] is the one-pass collapsing followed by the strip,
    and leaves no CR and no LF. *)
Lemma collapse_lines_spec text :
  collapse_lines text = strip (collapse_spec text)
  /\ (CR ∉ collapse_lines text) /\ (LF ∉ collapse_lines text).
Proof.
  unfold collapse_lines. rewrite collapse_single_pass.
  split_and!; [done| |]; intros H%strip_elem_of;
    by apply collapse_spec_no_line_end in H.
Qed.

End Strip.

(** ** process_item *)

Section ProcessItem.

Variable REPLACEMENTS : list (str * str).
Variable b64decode : bytes -> option bytes.
Variable int_of_str : str -> option Z.

(** The table is applied entry by entry, each to the text the entries
    before it produced. *)
Lemma do_replacements_cons needle replacement table text :
  do_replacements ((needle, replacement) :: table) text
  = do_replacements table (replace text needle replacement).
Proof. reflexivity. Qed.

Lemma do_replacements_nil text : do_replacements [] text = text.
Proof. reflexivity. Qed.

Lemma do_replacements_fold text :
  do_replacements REPLACEMENTS text
  = fold_left (fun t entry => replace t (fst entry) (snd entry))
              REPLACEMENTS text.
Proof.
  unfold do_replacements. revert text.
  induction REPLACEMENTS as [|[needle replacement] table IH];
    intros text; [done|]. cbn [fold_left fst snd]. apply IH.
Qed.



(** What a report that [process_item] turns into a dictionary has gone
    through. *)
Lemma process_item_inv item p :
  process_item REPLACEMENTS b64decode int_of_str item = Ok (Some p) ->
  exists raw_sender raw_content sender_text content_text,
    sender_B item = Some raw_sender
    /\ content_B item = Some raw_content
    /\ get_text (decode_field b64decode raw_sender) = Ok sender_text
    /\ get_text (decode_field b64decode raw_content) = Ok content_text
    /\ sender p = do_replacements REPLACEMENTS sender_text
    /\ content p
       = collapse_lines (do_replacements REPLACEMENTS content_text).
Proof.
  unfold process_item.
  destruct (sender_B item) as [raw_sender|]; [|done].
  destruct (content_B item) as [raw_content|]; [|done].
  destruct (get_text (decode_field b64decode raw_sender))
    as [sender_text| |] eqn:Hsender; cbn [obind]; try discriminate.
  destruct (get_text (decode_field b64decode raw_content))
    as [content_text| |] eqn:Hcontent; cbn [obind]; try discriminate.
  destruct (getitem (type_N item)) as [type_text| |];
    cbn [obind]; try discriminate.
  destruct (int_of_str type_text); cbn [obind]; try discriminate.
  destruct (getitem (reason_S item)); cbn [obind]; try discriminate.
  destruct (getitem (suggested_classification_S item));
    cbn [obind]; try discriminate.
  destruct (getitem (id_S item)); cbn [obind]; try discriminate.
  intros [= <-]. by exists raw_sender, raw_content, sender_text, content_text.
Qed.

End ProcessItem.

(** C7. The content of a processed report is the decoded content text with
    the substitution table applied to it entry by entry in table order,
    then every CR LF, every CR still there and every LF still there
    replaced by one space, then stripped; the three replacements amount to
    one pass that turns each CR LF pair, lone CR and lone LF into a space.
    The result holds no CR and no LF and neither starts nor ends with
    whitespace, and
    "line1\r\nline2\rline3\n" becomes "line1 line2 line3". *)
Theorem content_normalization (REPLACEMENTS : list (str * str))
    (b64decode : bytes -> option bytes) (int_of_str : str -> option Z)
    (item : report) (p : processed) :
  process_item REPLACEMENTS b64decode int_of_str item = Ok (Some p) ->
  (exists raw text,
      content_B item = Some raw
      /\ get_text (decode_field b64decode raw) = Ok text
      /\ content p
         = strip (replace (replace (replace
                    (fold_left (fun t entry => replace t (fst entry) (snd entry))
                               REPLACEMENTS text)
                    [CR; LF] [SP]) [CR] [SP]) [LF] [SP])
      /\ content p
         = strip (collapse_spec
                    (fold_left (fun t entry => replace t (fst entry) (snd entry))
                               REPLACEMENTS text)))
  /\ (CR ∉ content p) /\ (LF ∉ content p)
  /\ (forall c, head (content p) = Some c -> isspace c = false)
  /\ (forall c, last (content p) = Some c -> isspace c = false)
  /\ collapse_lines
       (py "line1" ++ [CR; LF] ++ py "line2" ++ [CR] ++ py "line3" ++ [LF])
     = py "line1 line2 line3".
Proof.
  intros Hp.
  destruct (process_item_inv _ _ _ _ _ Hp)
    as (_ & raw & _ & text & _ & Hraw & _ & Htext & _ & Hcontent).
  split_and!.
  - exists raw, text. split_and!; [done|done| |].
    + rewrite Hcontent, do_replacements_fold. reflexivity.
    + rewrite Hcontent, do_replacements_fold. apply collapse_lines_spec.
  - rewrite Hcontent. apply collapse_lines_spec.
  - rewrite Hcontent. apply collapse_lines_spec.
  - intros c. rewrite Hcontent. apply strip_ends.
  - intros c. rewrite Hcontent. apply strip_ends.
  - reflexivity.
Qed.

Lemma sample_report_processed :
  process_item sample_table sample_b64decode sample_int_of_str sample_report
  = Ok (Some sample_processed).
Proof. vm_compute. reflexivity. Defined.

(** The sample report's content, through the theorem. *)
Lemma content_normalization_witness :
  (CR ∉ content sample_processed) /\ (LF ∉ content sample_processed)
  /\ (exists raw text,
        content_B sample_report = Some raw
        /\ get_text (decode_field sample_b64decode raw) = Ok text
        /\ content sample_processed
           = strip (replace (replace (replace
                      (fold_left
                         (fun t entry => replace t (fst entry) (snd entry))
                         sample_table text)
                      [CR; LF] [SP]) [CR] [SP]) [LF] [SP])
        /\ content sample_processed
           = strip (collapse_spec
                      (fold_left
                         (fun t entry => replace t (fst entry) (snd entry))
                         sample_table text))).
Proof.
  destruct (content_normalization sample_table sample_b64decode
              sample_int_of_str sample_report sample_processed
              sample_report_processed)
    as (Hcontent & Hcr & Hlf & _).
  split_and!; assumption.
Defined.





(** * Further properties of the decoder *)

(** ** get_int: how much it reads and what it returns *)

Lemma rank_le (p : Z) (i : nat) : (rank p i <= i)%nat.
Proof.
  unfold rank.
  etransitivity; [apply List.filter_length_le|]. by rewrite length_seq.
Qed.

(** X1. [get_int] raises nothing but IndexError, and only when fewer than
    five bytes are left; otherwise it reads between one and five bytes and
    returns an integer from -1 to 2^32 - 1. *)
Theorem get_int_contract (data : bytes) (pos : nat) :
  (get_int (BytesIO.mk data pos) = Raise IndexError
   /\ (length data < pos + 5)%nat)
  \/ exists (n : Z) (pos1 : nat),
      get_int (BytesIO.mk data pos) = Ok (n, BytesIO.mk data pos1)
      /\ (pos < pos1 <= pos + 5)%nat
      /\ (pos1 <= length data)%nat
      /\ -1 <= n < 2 ^ 32.
Proof.
  pose proof (get_int_run data pos) as Hrun.
  destruct (data !! pos) as [m|] eqn:Hm.
  2: { left. split; [done|]. apply lookup_ge_None in Hm. lia. }
  pose proof (lookup_lt_Some _ _ _ Hm) as Hpos.
  pose proof (byte_int_range m) as Hm_range.
  destruct (Z.ltb_spec (byte_int m) 0xD0) as [Hlt|Hge].
  - right. exists (byte_int m - 1), (S pos).
    split_and!; [done|lia|lia|lia|lia|lia].
  - unfold get_int_buffer in Hrun. cbv zeta in Hrun.
    pose proof (rank_le (Z.land (byte_int m + 1) 0xF) 4) as Hrank.
    destruct (le_lt_dec (S pos + rank (Z.land (byte_int m + 1) 0xF) 4)
                (length data)) as [Hfit|Hshort].
    + right.
      destruct (get_int_buffer_run _ data (S pos) (mask_range _) Hfit)
        as (buf & Hbuf & Hlength & _).
      rewrite Hbuf in Hrun.
      pose proof (int_from_bytes_little_range buf) as Hrange.
      rewrite Hlength in Hrange.
      eexists _, _. split; [exact Hrun|].
      split_and!; [lia|lia|lia|lia|exact (proj2 Hrange)].
    + left. split; [|lia]. rewrite Hrun.
      rewrite get_int_buffer_truncated; [done|apply mask_range|lia].
Qed.

(** ** Computations that do not depend on what lies before the cursor *)

Section Shift.

Lemma shiftable_ret {A} (a : A) : shiftable (ret a).
Proof. by intros prefix data pos. Qed.

Lemma shiftable_raise {A} (e : exn) : shiftable (@raise A e).
Proof. by intros prefix data pos. Qed.

Lemma shiftable_bind {A B} (m : BytesIO.M A) (k : A -> BytesIO.M B) :
  shiftable m -> (forall a, shiftable (k a)) -> shiftable (a <- m ;; k a).
Proof.
  intros Hm Hk prefix data pos. unfold BytesIO.bind. rewrite Hm.
  destruct (m (BytesIO.mk data pos)) as [[a [data' pos']]| |]; [|done|done].
  cbn [rebase BytesIO.getvalue BytesIO.tell]. apply Hk.
Qed.

Lemma shiftable_read (size : Z) : shiftable (read size).
Proof.
  intros prefix data pos. unfold read, BytesIO.remaining.
  cbn [BytesIO.getvalue BytesIO.tell rebase].
  rewrite drop_app_add. by rewrite Nat.add_assoc.
Qed.

Lemma shiftable_index0 (bs : bytes) : shiftable (index0 bs).
Proof. destruct bs; [apply shiftable_raise|apply shiftable_ret]. Qed.

Lemma shiftable_for_each {A S} (xs : list A) (body : A -> S -> BytesIO.M S) :
  (forall x s, shiftable (body x s)) ->
  forall s, shiftable (for_each xs body s).
Proof.
  intros Hbody. induction xs as [|x xs IH]; intros s; cbn [for_each].
  - apply shiftable_ret.
  - apply shiftable_bind; [apply Hbody|apply IH].
Qed.

Lemma shiftable_get_int_step (p : Z) (i : nat) (result : bytes) :
  shiftable (get_int_step p i result).
Proof.
  unfold get_int_step. destruct (negb _); [|apply shiftable_ret].
  apply shiftable_bind; [apply shiftable_read|]. intros bs.
  apply shiftable_bind; [apply shiftable_index0|]. intros b.
  apply shiftable_ret.
Qed.

Lemma shiftable_get_int : shiftable get_int.
Proof.
  unfold get_int.
  apply shiftable_bind; [apply shiftable_read|]. intros bs.
  apply shiftable_bind; [apply shiftable_index0|]. intros m.
  cbv zeta. destruct (byte_int m <? 208); [apply shiftable_ret|].
  apply shiftable_bind; [|intros; apply shiftable_ret].
  apply shiftable_for_each. apply shiftable_get_int_step.
Qed.

Lemma shiftable_get_text_body (result : bytes) :
  shiftable (get_text_body result).
Proof.
  unfold get_text_body.
  apply shiftable_bind; [apply shiftable_read|]. intros bs.
  apply shiftable_bind; [apply shiftable_index0|]. intros b.
  destruct (byte_int b =? START); [|apply shiftable_ret].
  apply shiftable_bind; [apply shiftable_read|]. intros _.
  apply shiftable_bind; [apply shiftable_get_int|]. intros n.
  apply shiftable_bind; [apply shiftable_read|]. intros _.
  apply shiftable_bind; [apply shiftable_read|]. intros bs'.
  apply shiftable_bind; [apply shiftable_index0|]. intros e.
  destruct (byte_int e =? END); [apply shiftable_ret|apply shiftable_raise].
Qed.

End Shift.

(** ** Computations that a longer buffer does not disturb *)

Section Extend.

Lemma extends_ret {A} (a : A) : extends (ret a).
Proof.
  intros data pos a' cursor [= <- <-]. by exists pos.
Qed.

Lemma extends_bind {A B} (m : BytesIO.M A) (k : A -> BytesIO.M B) :
  extends m -> (forall a, extends (k a)) -> extends (a <- m ;; k a).
Proof.
  intros Hm Hk data pos b cursor. unfold BytesIO.bind.
  destruct (m (BytesIO.mk data pos)) as [[a c1]| |] eqn:Hrun; [|done|done].
  destruct (Hm _ _ _ _ Hrun) as (pos1 & -> & Hmore).
  intros Hrun2. destruct (Hk a _ _ _ _ Hrun2) as (pos2 & -> & Hmore2).
  exists pos2. split; [done|]. intros more. by rewrite Hmore.
Qed.

(** [cursor.read(1)[0]] followed by more. *)
Lemma extends_read_byte {B} (k : byte -> BytesIO.M B) :
  (forall b, extends (k b)) ->
  extends (bs <- read 1 ;; b <- index0 bs ;; k b).
Proof.
  intros Hk data pos x cursor. rewrite read_byte_run.
  destruct (data !! pos) as [b|] eqn:Hb; [|done].
  intros Hrun. destruct (Hk b _ _ _ _ Hrun) as (pos' & -> & Hmore).
  exists pos'. split; [done|]. intros more.
  rewrite read_byte_run, (lookup_app_l_Some _ _ _ _ Hb). apply Hmore.
Qed.

Lemma extends_for_each {A S} (xs : list A) (body : A -> S -> BytesIO.M S) :
  (forall x s, extends (body x s)) ->
  forall s, extends (for_each xs body s).
Proof.
  intros Hbody. induction xs as [|x xs IH]; intros s; cbn [for_each].
  - apply extends_ret.
  - apply extends_bind; [apply Hbody|apply IH].
Qed.

Lemma extends_get_int_step (p : Z) (i : nat) (result : bytes) :
  extends (get_int_step p i result).
Proof.
  unfold get_int_step. destruct (negb _); [|apply extends_ret].
  apply extends_read_byte. intros b. apply extends_ret.
Qed.

Lemma extends_get_int : extends get_int.
Proof.
  unfold get_int. apply extends_read_byte. intros m.
  cbv zeta. destruct (byte_int m <? 208); [apply extends_ret|].
  apply extends_bind; [|intros; apply extends_ret].
  apply extends_for_each. apply extends_get_int_step.
Qed.

End Extend.

(** ** One iteration of the loop, in detail *)

Section Iteration.

Implicit Types (data result : bytes) (pos : nat).

(** What a completed iteration has done: skipped a block that starts with
    START and ends with END, or taken one byte other than START. *)
Lemma get_text_body_ok result data pos result' cursor' :
  get_text_body result (BytesIO.mk data pos) = Ok (result', cursor') ->
  exists pos',
    cursor' = BytesIO.mk data pos'
    /\ (pos < pos' <= length data)%nat
    /\ ((data !! pos = Some x02 /\ result' = result
         /\ data !! (pos' - 1)%nat = Some x03 /\ (pos + 4 <= pos')%nat)
        \/ (exists b, data !! pos = Some b /\ b <> x02
                      /\ result' = result ++ [b] /\ pos' = S pos)).
Proof.
  destruct (data !! pos) as [b|] eqn:Hb.
  2: { by rewrite get_text_body_end. }
  pose proof (lookup_lt_Some _ _ _ Hb) as Hpos.
  destruct (Z.eq_dec (byte_int b) START) as [Hst|Hne].
  - destruct (get_int_cases data (S (S pos)))
      as [Hint|(n & pos1 & Hint & Hpos1 & _)].
    + by rewrite (get_text_body_block_raise result data pos b Hb Hst Hint).
    + rewrite (get_text_body_block result data pos b n pos1 Hb Hst Hint).
      cbv zeta.
      destruct (data !! (pos1 + read_length n data pos1)%nat)
        as [e|] eqn:He; [|done].
      destruct (Z.eqb_spec (byte_int e) END) as [Hend|]; [|done].
      intros [= <- <-]. eexists. split; [reflexivity|].
      apply lookup_lt_Some in He as Hlt. split; [lia|]. left.
      apply byte_int_START in Hst as ->. apply byte_int_END in Hend as ->.
      split_and!; [done|done| |lia].
      by replace (S (pos1 + read_length n data pos1) - 1)%nat
        with (pos1 + read_length n data pos1)%nat by lia.
  - rewrite (get_text_body_literal result data pos b Hb Hne).
    intros [= <- <-]. exists (S pos). split; [done|]. split; [lia|].
    right. exists b. split_and!; try done.
    intros ->. by apply Hne.
Qed.

Lemma extends_get_text_body result : extends (get_text_body result).
Proof.
  intros data pos result' cursor Hrun.
  destruct (data !! pos) as [b|] eqn:Hb.
  2: { by rewrite get_text_body_end in Hrun. }
  destruct (Z.eq_dec (byte_int b) START) as [Hst|Hne].
  - destruct (get_int_cases data (S (S pos)))
      as [Hint|(n & pos1 & Hint & Hpos1 & _)].
    + by rewrite (get_text_body_block_raise result data pos b Hb Hst Hint)
        in Hrun.
    + rewrite (get_text_body_block result data pos b n pos1 Hb Hst Hint)
        in Hrun.
      cbv zeta in Hrun.
      destruct (data !! (pos1 + read_length n data pos1)%nat)
        as [e|] eqn:He; [|done].
      destruct (byte_int e =? END) eqn:Hend; [|done].
      injection Hrun as <- <-. eexists. split; [reflexivity|].
      intros more.
      destruct (extends_get_int _ _ _ _ Hint) as (q & [= <-] & Hmore).
      rewrite (get_text_body_block result (data ++ more) pos b n pos1
                 (lookup_app_l_Some _ _ _ _ Hb) Hst (Hmore more)).
      cbv zeta.
      assert (read_length n (data ++ more) pos1 = read_length n data pos1)
        as ->.
      { apply lookup_lt_Some in He. unfold read_length in *.
        rewrite length_app. destruct (n <? 0); lia. }
      by rewrite (lookup_app_l_Some _ _ _ _ He), Hend.
  - rewrite (get_text_body_literal result data pos b Hb Hne) in Hrun.
    injection Hrun as <- <-. eexists. split; [reflexivity|].
    intros more.
    by rewrite (get_text_body_literal result (data ++ more) pos b
                  (lookup_app_l_Some _ _ _ _ Hb) Hne).
Qed.

(** The iteration only appends to the accumulator it is given. *)
Lemma get_text_body_prepend prefix result data pos :
  get_text_body (prefix ++ result) (BytesIO.mk data pos)
  = match get_text_body result (BytesIO.mk data pos) with
    | Ok (result', cursor') => Ok (prefix ++ result', cursor')
    | Raise e => Raise e
    | OutOfFuel => OutOfFuel
    end.
Proof.
  destruct (data !! pos) as [b|] eqn:Hb.
  2: { by rewrite !get_text_body_end. }
  destruct (Z.eq_dec (byte_int b) START) as [Hst|Hne].
  - destruct (get_int_cases data (S (S pos)))
      as [Hint|(n & pos1 & Hint & _)].
    + by rewrite !(get_text_body_block_raise _ data pos b Hb Hst Hint).
    + rewrite !(get_text_body_block _ data pos b n pos1 Hb Hst Hint).
      cbv zeta.
      destruct (data !! (pos1 + read_length n data pos1)%nat) as [e|];
        [|done].
      by destruct (byte_int e =? END).
  - rewrite !(get_text_body_literal _ data pos b Hb Hne).
    by rewrite app_assoc.
Qed.

(** The loop on the back part of a buffer does what it does on that part
    alone. *)
Lemma get_text_loop_shift prefix data front fuel :
  forall result pos,
    get_text_loop fuel (front ++ data) (prefix ++ result)
      (BytesIO.mk (front ++ data) (length front + pos))
    = prepend prefix
        (get_text_loop fuel data result (BytesIO.mk data pos)).
Proof.
  induction fuel as [|fuel IH]; intros result pos;
    cbn [get_text_loop BytesIO.tell]; rewrite length_app;
    destruct (Nat.ltb_spec pos (length data));
    destruct (Nat.ltb_spec (length front + pos)
                (length front + length data)); try lia; try done.
  rewrite get_text_body_prepend, shiftable_get_text_body.
  destruct (get_text_body result (BytesIO.mk data pos))
    as [[result' cursor']| |] eqn:Hbody; [|done|done].
  destruct (get_text_body_ok _ _ _ _ _ Hbody) as (pos' & -> & _).
  cbn [rebase BytesIO.getvalue BytesIO.tell]. apply IH.
Qed.

Lemma reaches_extend data result cursor more :
  reaches data result cursor ->
  exists pos,
    cursor = BytesIO.mk data pos
    /\ reaches (data ++ more) result (BytesIO.mk (data ++ more) pos).
Proof.
  induction 1 as [|result cursor result' cursor' _ (pos & -> & IH) Hlt Hbody].
  - exists 0%nat. split; [done|apply reaches_start].
  - destruct (extends_get_text_body _ _ _ _ _ Hbody) as (pos' & -> & Hmore).
    exists pos'. split; [done|].
    eapply reaches_step; [exact IH| |apply Hmore].
    cbn in *. rewrite length_app. lia.
Qed.

(** A loop that returns has reached the end of the buffer. *)
Lemma get_text_loop_reaches data fuel :
  forall result0 pos result,
    reaches data result0 (BytesIO.mk data pos) ->
    get_text_loop fuel data result0 (BytesIO.mk data pos) = Ok result ->
    reaches data result (BytesIO.mk data (length data)).
Proof.
  induction fuel as [|fuel IH]; intros result0 pos result Hreach;
    pose proof (reaches_inv _ _ _ Hreach) as [_ Hle]; cbn in Hle;
    cbn [get_text_loop BytesIO.tell];
    destruct (Nat.ltb_spec pos (length data)) as [Hlt|Hge]; try done.
  - intros [= <-]. by replace (length data) with pos by lia.
  - destruct (get_text_body result0 (BytesIO.mk data pos))
      as [[result' cursor']| |] eqn:Hbody; [|done|done].
    destruct (get_text_body_ok _ _ _ _ _ Hbody) as (pos' & -> & _).
    apply IH. by eapply reaches_step.
  - intros [= <-]. by replace (length data) with pos by lia.
Qed.

Lemma literal_bytes_reaches data result :
  literal_bytes data = Ok result <->
  reaches data result (BytesIO.mk data (length data)).
Proof.
  split.
  - apply get_text_loop_reaches, reaches_start.
  - intros Hreach. unfold literal_bytes.
    rewrite (reaches_loop _ _ _ Hreach), Nat.sub_diag.
    cbn [get_text_loop BytesIO.tell]. by rewrite Nat.ltb_irrefl.
Qed.

Lemma get_text_literal_bytes data :
  get_text data = (result <~ literal_bytes data ;; decode_utf8 result).
Proof. reflexivity. Qed.

(** A loop that raises has reached an iteration that raises. *)
Lemma get_text_loop_raises data fuel :
  forall result0 pos e,
    reaches data result0 (BytesIO.mk data pos) ->
    get_text_loop fuel data result0 (BytesIO.mk data pos) = Raise e ->
    exists result pos',
      reaches data result (BytesIO.mk data pos')
      /\ (pos' < length data)%nat
      /\ get_text_body result (BytesIO.mk data pos') = Raise e.
Proof.
  induction fuel as [|fuel IH]; intros result0 pos e Hreach;
    cbn [get_text_loop BytesIO.tell];
    destruct (Nat.ltb_spec pos (length data)) as [Hlt|Hge]; try done.
  destruct (get_text_body result0 (BytesIO.mk data pos))
    as [[result' cursor']|e'|] eqn:Hbody; [| |done].
  - destruct (get_text_body_ok _ _ _ _ _ Hbody) as (pos' & -> & _).
    apply IH. by eapply reaches_step.
  - intros [= ->]. by exists result0, pos.
Qed.

End Iteration.

(** C9. The loop of [get_text] terminates on every buffer, as one pass in
    which the cursor only moves forward.  Each round of the loop tests the
    cursor against the end of the buffer and runs one iteration
    ([get_text_body]) on the state the round before left.  An iteration
    that completes leaves the cursor in the same buffer strictly further
    than it found it, so the number of bytes left strictly decreases and no
    iteration rewinds.  The loop ends in exactly two ways: it returns the
    accumulator of a state it has reached with the cursor at the end of the
    buffer, or it raises what the iteration at a reached state before the
    end raises.  A budget of [len(input_data)] rounds is never used up, and
    a larger budget changes nothing. *)
Theorem get_text_terminates (data : bytes) :
  get_text data <> OutOfFuel
  /\ (forall fuel : nat,
        (length data <= fuel)%nat -> get_text_fuel fuel data = get_text data)
  /\ (forall result cursor,
        reaches data result cursor ->
        BytesIO.getvalue cursor = data
        /\ (BytesIO.tell cursor <= length data)%nat)
  /\ (forall result pos result' cursor',
        get_text_body result (BytesIO.mk data pos) = Ok (result', cursor') ->
        BytesIO.getvalue cursor' = data
        /\ (pos < BytesIO.tell cursor' <= length data)%nat
        /\ (length data - BytesIO.tell cursor' < length data - pos)%nat)
  /\ (forall fuel result cursor,
        get_text_loop (S fuel) data result cursor
        = if (BytesIO.tell cursor <? length data)%nat then
            match get_text_body result cursor with
            | Ok (result', cursor') => get_text_loop fuel data result' cursor'
            | Raise e => Raise e
            | OutOfFuel => OutOfFuel
            end
          else Ok result)
  /\ (forall result,
        get_text_loop (length data) data [] (BytesIO.mk data 0) = Ok result
        <-> reaches data result (BytesIO.mk data (length data)))
  /\ (forall e,
        get_text_loop (length data) data [] (BytesIO.mk data 0) = Raise e
        <-> exists result pos,
            reaches data result (BytesIO.mk data pos)
            /\ (pos < length data)%nat
            /\ get_text_body result (BytesIO.mk data pos) = Raise e)
  /\ (forall s,
        get_text data = Ok s
        <-> exists result,
            reaches data result (BytesIO.mk data (length data))
            /\ utf8_decode result = Some s).
Proof.
  assert (Hok : forall result,
            get_text_loop (length data) data [] (BytesIO.mk data 0)
            = Ok result
            <-> reaches data result (BytesIO.mk data (length data))).
  { intros result. split.
    - apply get_text_loop_reaches, reaches_start.
    - intros Hreach. rewrite (reaches_loop _ _ _ Hreach), Nat.sub_diag.
      cbn [get_text_loop BytesIO.tell]. by rewrite Nat.ltb_irrefl. }
  split_and!.
  - unfold get_text, get_text_fuel.
    destruct (get_text_loop_fuel data (length data) (length data) [] 0)
      as [_ Hne]; [lia|lia|].
    destruct (get_text_loop _ _ _ _); [|done|done].
    unfold decode_utf8. by destruct (utf8_decode _).
  - intros fuel Hfuel. unfold get_text, get_text_fuel.
    destruct (get_text_loop_fuel data fuel (length data) [] 0)
      as [-> _]; [lia|lia|done].
  - apply reaches_inv.
  - intros result pos result' cursor' Hbody.
    destruct (get_text_body_cases result data pos)
      as [H|[H|(r & pos' & H & Hpos' & _)]];
      rewrite H in Hbody; try discriminate.
    injection Hbody as <- <-. cbn. split_and!; [done|lia|lia|lia].
  - reflexivity.
  - exact Hok.
  - intros e. split.
    + apply get_text_loop_raises, reaches_start.
    + intros (result & pos & Hreach & Hlt & Hbody).
      rewrite (reaches_loop _ _ _ Hreach).
      destruct (length data - pos)%nat as [|fuel] eqn:Hfuel; [lia|].
      cbn [get_text_loop BytesIO.tell].
      destruct (Nat.ltb_spec pos (length data)); [|lia].
      by rewrite Hbody.
  - intros s. unfold get_text, get_text_fuel. split.
    + destruct (get_text_loop _ _ _ _) as [result| |] eqn:Hloop;
        [|done|done].
      unfold decode_utf8.
      destruct (utf8_decode result) as [s'|] eqn:Hdec; [|done].
      intros [= <-]. exists result. split; [by apply Hok|done].
    + intros (result & Hreach%Hok & Hdec). rewrite Hreach.
      unfold decode_utf8. by rewrite Hdec.
Qed.

(** On the seven bytes of the introductory example: a larger budget gives
    the same text, the iteration at the START byte moves the cursor from 2
    to 6, the loop returns the accumulator of the state it reaches at the
    end of the buffer, and on the five bytes that end inside the block it
    raises what the iteration at the START byte raises. *)
Lemma get_text_terminates_witness :
  get_text_fuel 9 [x48; x69; x02; x00; x01; x03; x21]
  = get_text [x48; x69; x02; x00; x01; x03; x21]
  /\ (2 < 6 <= 7)%nat
  /\ reaches [x48; x69; x02; x00; x01; x03; x21] [x48; x69; x21]
       (BytesIO.mk [x48; x69; x02; x00; x01; x03; x21] 7)
  /\ exists result pos,
      reaches [x48; x69; x02; x00; x01] result
        (BytesIO.mk [x48; x69; x02; x00; x01] pos)
      /\ (pos < 5)%nat
      /\ get_text_body result (BytesIO.mk [x48; x69; x02; x00; x01] pos)
         = Raise IndexError.
Proof.
  destruct (get_text_terminates [x48; x69; x02; x00; x01; x03; x21])
    as (_ & Hfuel & _ & Hstep & _ & Hok & _).
  destruct (get_text_terminates [x48; x69; x02; x00; x01])
    as (_ & _ & _ & _ & _ & _ & Hraise & _).
  refine (conj _ (conj _ (conj _ _))).
  - apply Hfuel. cbn. lia.
  - destruct (Hstep [x48; x69] 2%nat [x48; x69]
                (BytesIO.mk [x48; x69; x02; x00; x01; x03; x21] 6) eq_refl)
      as (_ & Hpos & _).
    exact Hpos.
  - apply Hok. reflexivity.
  - apply Hraise. reflexivity.
Defined.

(** ** bytes.decode("utf-8"), one code point at a time *)

Ltac bool_to_prop :=
  repeat match goal with
         | H : _ && _ = true |- _ => apply andb_prop in H as [? ?]
         | H : (_ <=? _) = true |- _ => apply Z.leb_le in H
         | H : (_ <=? _) = false |- _ => apply Z.leb_gt in H
         | H : (_ <? _) = true |- _ => apply Z.ltb_lt in H
         | H : (_ <? _) = false |- _ => apply Z.ltb_ge in H
         | H : (_ =? _) = true |- _ => apply Z.eqb_eq in H
         | H : (_ =? _) = false |- _ => apply Z.eqb_neq in H
         end.

Section Utf8.

Implicit Types (bs more : bytes) (s : str).

Lemma utf8_decode_step b0 r0 :
  utf8_decode (b0 :: r0) =
  match utf8_step (b0 :: r0) with
  | Some (cp, rest) => cons cp <$> utf8_decode rest
  | None => None
  end.
Proof.
  cbn [utf8_decode utf8_step]. cbv zeta.
  repeat case_match; reflexivity.
Qed.

Lemma utf8_step_split bs cp rest :
  utf8_step bs = Some (cp, rest) ->
  exists pre,
    bs = pre ++ rest
    /\ (1 <= length pre <= 4)%nat
    /\ 0 <= cp
    /\ (cp < 0x80 -> exists b, pre = [b] /\ byte_int b = cp).
Proof.
  unfold utf8_step, in_range, is_cont, second3, second4.
  destruct bs as [|b0 r0]; [done|].
  cbv zeta. pose proof (byte_int_range b0).
  repeat case_match; intros [= <- <-]; simplify_eq; cbn [fst snd] in *;
    bool_to_prop.
  1: exists [b0]; split_and!; [done|cbn; lia|cbn; lia|lia|]; by exists b0.
  1: eexists [b0; _]; split_and!; [done|cbn; lia|cbn; lia|lia|lia].
  1-3: eexists [b0; _; _]; split_and!; [done|cbn; lia|cbn; lia|lia|lia].
  all: eexists [b0; _; _; _]; split_and!; [done|cbn; lia|cbn; lia|lia|lia].
Qed.

Lemma utf8_step_app bs more cp rest :
  utf8_step bs = Some (cp, rest) ->
  utf8_step (bs ++ more) = Some (cp, rest ++ more).
Proof.
  unfold utf8_step. destruct bs as [|b0 r0]; [done|]. cbn [app]. cbv zeta.
  destruct (byte_int b0 <? 128); [by intros [= <- <-]|].
  destruct (in_range 194 223 (byte_int b0)).
  { destruct r0 as [|b1 r1]; [done|]. cbn [app].
    destruct (is_cont (byte_int b1)); [by intros [= <- <-]|done]. }
  destruct (in_range 224 239 (byte_int b0)).
  { destruct r0 as [|b1 [|b2 r2]]; [done|done|]. cbn [app].
    destruct (_ && _); [by intros [= <- <-]|done]. }
  destruct (in_range 240 244 (byte_int b0)); [|done].
  destruct r0 as [|b1 [|b2 [|b3 r3]]]; [done|done|done|]. cbn [app].
  destruct (_ && _); [by intros [= <- <-]|done].
Qed.

Lemma utf8_decode_app bs more s :
  utf8_decode bs = Some s ->
  utf8_decode (bs ++ more) = (fun t => s ++ t) <$> utf8_decode more.
Proof.
  remember (length bs) as n eqn:Hn.
  assert (Hle : (length bs <= n)%nat) by lia. clear Hn.
  revert bs s Hle. induction n as [|n IH]; intros bs s Hle.
  - destruct bs; [|cbn in Hle; lia]. intros [= <-]. cbn.
    by destruct (utf8_decode more).
  - destruct bs as [|b0 r0].
    { intros [= <-]. cbn. by destruct (utf8_decode more). }
    cbn [app]. rewrite !utf8_decode_step.
    destruct (utf8_step (b0 :: r0)) as [[cp rest]|] eqn:Hstep; [|done].
    change (b0 :: r0 ++ more) with ((b0 :: r0) ++ more).
    rewrite (utf8_step_app _ more _ _ Hstep).
    destruct (utf8_step_split _ _ _ Hstep) as (pre & Hpre & Hlen & _).
    destruct (utf8_decode rest) as [s'|] eqn:Hrest; [|done].
    intros [= <-].
    rewrite Hpre, length_app in Hle.
    rewrite (IH rest s' ltac:(lia) Hrest).
    by destruct (utf8_decode more).
Qed.

Lemma utf8_decode_length bs s :
  utf8_decode bs = Some s -> (length s <= length bs)%nat.
Proof.
  remember (length bs) as n eqn:Hn.
  assert (Hle : (length bs <= n)%nat) by lia.
  rewrite Hn. clear Hn.
  revert bs s Hle. induction n as [|n IH]; intros bs s Hle.
  - destruct bs; [|cbn in Hle; lia]. by intros [= <-].
  - destruct bs as [|b0 r0]; [by intros [= <-]|].
    rewrite utf8_decode_step.
    destruct (utf8_step (b0 :: r0)) as [[cp rest]|] eqn:Hstep; [|done].
    destruct (utf8_step_split _ _ _ Hstep) as (pre & Hpre & Hlen & _).
    destruct (utf8_decode rest) as [s'|] eqn:Hrest; [|done].
    intros [= <-]. rewrite Hpre, length_app in *.
    specialize (IH rest s' ltac:(lia) Hrest). cbn. lia.
Qed.

(** A code point below 0x80 in the decoded text is one byte of the input. *)
Lemma utf8_decode_low bs s c :
  utf8_decode bs = Some s ->
  c ∈ s -> c < 0x80 ->
  exists b, b ∈ bs /\ byte_int b = c.
Proof.
  remember (length bs) as n eqn:Hn.
  assert (Hle : (length bs <= n)%nat) by lia. clear Hn.
  revert bs s Hle. induction n as [|n IH]; intros bs s Hle.
  - destruct bs; [|cbn in Hle; lia]. intros [= <-]. by intros ?%elem_of_nil.
  - destruct bs as [|b0 r0]; [intros [= <-]; by intros ?%elem_of_nil|].
    rewrite utf8_decode_step.
    destruct (utf8_step (b0 :: r0)) as [[cp rest]|] eqn:Hstep; [|done].
    destruct (utf8_step_split _ _ _ Hstep) as (pre & Hpre & Hlen & _ & Hlow).
    destruct (utf8_decode rest) as [s'|] eqn:Hrest; [|done].
    intros [= <-] [->|Hin]%elem_of_cons Hc; rewrite Hpre.
    + destruct (Hlow Hc) as (b & -> & Hb). exists b.
      split; [|done]. apply elem_of_app. left. by apply list_elem_of_singleton.
    + rewrite Hpre, length_app in Hle.
      destruct (IH rest s' ltac:(lia) Hrest Hin Hc) as (b & Hb & Hval).
      exists b. split; [|done]. apply elem_of_app. by right.
Qed.

Lemma utf8_decode_ascii bs :
  Forall (fun b => byte_int b < 0x80) bs ->
  utf8_decode bs = Some (map byte_int bs).
Proof.
  induction 1 as [|b bs Hb _ IH]; [done|].
  cbn [utf8_decode map]. cbv zeta.
  destruct (Z.ltb_spec (byte_int b) 128); [|lia]. by rewrite IH.
Qed.

End Utf8.

(** ** get_text: outcomes, what the text is made of, buffers put together *)

Lemma get_text_loop_outcomes (data : bytes) (fuel : nat) :
  forall result pos,
    (exists result', get_text_loop fuel data result (BytesIO.mk data pos)
                     = Ok result')
    \/ get_text_loop fuel data result (BytesIO.mk data pos) = Raise IndexError
    \/ get_text_loop fuel data result (BytesIO.mk data pos)
       = Raise AssertionError
    \/ get_text_loop fuel data result (BytesIO.mk data pos) = OutOfFuel.
Proof.
  induction fuel as [|fuel IH]; intros result pos;
    cbn [get_text_loop BytesIO.tell];
    destruct (pos <? length data)%nat; eauto.
  destruct (get_text_body_cases result data pos)
    as [->|[->|(result' & pos' & -> & _)]]; eauto.
Qed.

(** X2. [get_text] returns a string or raises one of IndexError,
    AssertionError and UnicodeDecodeError, and nothing else; the last one
    only once the whole buffer has been scanned without an error. *)
Theorem get_text_outcomes (data : bytes) :
  (exists s, get_text data = Ok s)
  \/ get_text data = Raise IndexError
  \/ get_text data = Raise AssertionError
  \/ (get_text data = Raise UnicodeDecodeError
      /\ exists result, literal_bytes data = Ok result
                        /\ utf8_decode result = None).
Proof.
  rewrite get_text_literal_bytes. unfold literal_bytes.
  destruct (get_text_loop_fuel data (length data) (length data) [] 0)
    as [_ Hfuel]; [lia|lia|].
  destruct (get_text_loop_outcomes data (length data) [] 0)
    as [[result Hok]|[H|[H|H]]]; rewrite ?H; cbn [obind]; auto; [|done].
  rewrite Hok. cbn [obind]. unfold decode_utf8.
  destruct (utf8_decode result) eqn:Hdec; eauto 10.
Qed.

Lemma reaches_sublist (data result : bytes) (pos : nat) :
  reaches data result (BytesIO.mk data pos) ->
  result `sublist_of` take pos data /\ x02 ∉ result.
Proof.
  remember (BytesIO.mk data pos) as cursor eqn:Hc.
  intros Hreach. revert pos Hc.
  induction Hreach as [|result cursor result' cursor' Hreach IH Hlt Hbody];
    intros pos' Hc.
  - injection Hc as <-. split; [done|]. by intros ?%elem_of_nil.
  - subst cursor'.
    destruct (reaches_inv _ _ _ Hreach) as [Hdata _].
    destruct cursor as [data' pos]. cbn in Hdata. subst data'.
    destruct (IH pos eq_refl) as [Hsub Hno].
    destruct (get_text_body_ok _ _ _ _ _ Hbody)
      as (q & [= <-] & Hq & [(_ & -> & _)|(b & Hb & Hne & -> & ->)]).
    + split; [|done].
      rewrite <- (take_drop pos (take pos' data)), take_take.
      replace (pos `min` pos')%nat with pos by lia.
      by apply sublist_inserts_r.
    + split.
      * rewrite (take_S_r _ _ _ Hb). by apply sublist_app.
      * rewrite not_elem_of_app. split; [done|].
        intros ?%list_elem_of_singleton. by apply Hne.
Qed.

(** X3. The literal bytes [get_text] collects are taken from the buffer in
    their order, none of them is the START byte, and the text decoded from
    them has no more characters than the buffer has bytes and does not
    contain U+0002. *)
Theorem get_text_from_buffer (data : bytes) (s : str) :
  get_text data = Ok s ->
  (exists result,
      literal_bytes data = Ok result
      /\ utf8_decode result = Some s
      /\ result `sublist_of` data
      /\ x02 ∉ result)
  /\ (length s <= length data)%nat
  /\ START ∉ s.
Proof.
  rewrite get_text_literal_bytes.
  destruct (literal_bytes data) as [result| |] eqn:Hlit; [|done|done].
  cbn [obind]. unfold decode_utf8.
  destruct (utf8_decode result) as [s'|] eqn:Hdec; [|done]. intros [= ->].
  apply literal_bytes_reaches, reaches_sublist in Hlit as [Hsub Hno].
  rewrite firstn_all in Hsub.
  split_and!.
  - by exists result.
  - apply utf8_decode_length in Hdec. apply sublist_length in Hsub. lia.
  - intros Hin.
    destruct (utf8_decode_low _ _ _ Hdec Hin ltac:(by vm_compute))
      as (b & Hb & Hval).
    apply byte_int_START in Hval as ->. by apply Hno.
Qed.

(** The block of the introductory example leaves no trace, and its
    payload-free body does not count. *)
Lemma get_text_from_buffer_witness :
  (length (py "Hi!") <= length [x48; x69; x02; x00; x01; x03; x21])%nat
  /\ START ∉ py "Hi!".
Proof.
  destruct (get_text_from_buffer [x48; x69; x02; x00; x01; x03; x21]
              (py "Hi!") eq_refl) as (_ & Hlen & Hno).
  by split.
Defined.

(** The literal bytes of two buffers put together, when the first one is
    scanned to its end without an error. *)
Lemma literal_bytes_app (front back result : bytes) :
  literal_bytes front = Ok result ->
  literal_bytes (front ++ back) = prepend result (literal_bytes back).
Proof.
  intros Hfront%literal_bytes_reaches.
  destruct (reaches_extend _ _ _ back Hfront) as (pos & [= <-] & Hreach).
  unfold literal_bytes. rewrite (reaches_loop _ _ _ Hreach).
  rewrite length_app.
  replace (length front + length back - length front)%nat
    with (length back) by lia.
  pose proof (get_text_loop_shift result back front (length back) [] 0%nat)
    as Hshift.
  by rewrite app_nil_r, Nat.add_0_r in Hshift.
Qed.

(** X4. When [get_text] returns on a buffer, then on that buffer followed
    by a second one it does what it does on the second one, with the text
    of the first in front: the two texts put together, or the exception
    the second buffer raises. *)
Theorem get_text_app (front back : bytes) (s : str) :
  get_text front = Ok s ->
  get_text (front ++ back)
  = match get_text back with
    | Ok t => Ok (s ++ t)
    | Raise e => Raise e
    | OutOfFuel => OutOfFuel
    end.
Proof.
  rewrite !get_text_literal_bytes.
  destruct (literal_bytes front) as [result| |] eqn:Hfront; [|done|done].
  cbn [obind]. unfold decode_utf8 at 1.
  destruct (utf8_decode result) as [s'|] eqn:Hdec; [|done]. intros [= ->].
  rewrite (literal_bytes_app _ back _ Hfront).
  destruct (literal_bytes back) as [result'| |]; cbn [prepend obind];
    [|done|done].
  unfold decode_utf8. rewrite (utf8_decode_app _ result' _ Hdec).
  by destruct (utf8_decode result').
Qed.

(** A text with a block in it, followed by a plain text; and the same
    text followed by a truncated block. *)
Lemma get_text_app_witness :
  get_text ([x48; x69; x02; x00; x01; x03; x21] ++ [x20; x4f; x4b])
  = Ok (py "Hi!" ++ py " OK")
  /\ get_text ([x48; x69; x02; x00; x01; x03; x21] ++ [x02; x00])
     = Raise IndexError.
Proof.
  split.
  - exact (get_text_app [x48; x69; x02; x00; x01; x03; x21] [x20; x4f; x4b]
             (py "Hi!") eq_refl).
  - exact (get_text_app [x48; x69; x02; x00; x01; x03; x21] [x02; x00]
             (py "Hi!") eq_refl).
Defined.

(** A complete block on its own: the loop returns with nothing collected. *)
Lemma literal_bytes_block (kind : byte) (enc payload : bytes) :
  get_int (BytesIO.mk enc 0)
  = Ok (Z.of_nat (length payload), BytesIO.mk enc (length enc)) ->
  literal_bytes (x02 :: kind :: enc ++ payload ++ [x03]) = Ok [].
Proof.
  intros Henc.
  set (block := x02 :: kind :: enc ++ payload ++ [x03]).
  assert (Hlen : length block = (2 + length enc + length payload + 1)%nat).
  { unfold block. cbn. rewrite !length_app. cbn. lia. }
  assert (Hint : get_int (BytesIO.mk block 2)
                 = Ok (Z.of_nat (length payload),
                       BytesIO.mk block (2 + length enc))).
  { destruct (extends_get_int _ _ _ _ Henc) as (q & [= <-] & Hmore).
    pose proof (shiftable_get_int [x02; kind] (enc ++ payload ++ [x03])
                  0%nat) as Hshift.
    rewrite (Hmore (payload ++ [x03])) in Hshift.
    cbn [rebase BytesIO.getvalue BytesIO.tell length app Nat.add] in Hshift.
    exact Hshift. }
  apply literal_bytes_reaches.
  apply (reaches_step block [] (BytesIO.mk block 0));
    [apply reaches_start|cbn; lia|].
  rewrite (get_text_body_block [] block 0 x02 _ _ eq_refl eq_refl Hint).
  cbv zeta.
  assert (read_length (Z.of_nat (length payload)) block (2 + length enc)
          = length payload) as ->.
  { unfold read_length. destruct (Z.ltb_spec (Z.of_nat (length payload)) 0);
      [lia|]. rewrite Nat2Z.id, Hlen. lia. }
  assert (block !! (2 + length enc + length payload)%nat = Some x03) as ->.
  { unfold block. change (x02 :: kind :: enc ++ payload ++ [x03])
      with ([x02; kind] ++ enc ++ payload ++ [x03]).
    rewrite !app_assoc. apply list_lookup_middle.
    rewrite !length_app. cbn. reflexivity. }
  change (byte_int x03 =? END) with true. cbv iota.
  rewrite Hlen. do 3 f_equal. lia.
Qed.

(** X5. A complete block (START, a kind byte, an encoded length, that many
    payload bytes, END) behind a part that [get_text] scans without an
    error leaves no trace: the outcome is that of the buffer without the
    block, whatever the kind byte and the payload bytes are. *)
Theorem block_skipped (front back result : bytes) (kind : byte)
    (enc payload : bytes) :
  literal_bytes front = Ok result ->
  get_int (BytesIO.mk enc 0)
  = Ok (Z.of_nat (length payload), BytesIO.mk enc (length enc)) ->
  literal_bytes (front ++ (x02 :: kind :: enc ++ payload ++ [x03]) ++ back)
  = literal_bytes (front ++ back)
  /\ get_text (front ++ (x02 :: kind :: enc ++ payload ++ [x03]) ++ back)
     = get_text (front ++ back).
Proof.
  intros Hfront Henc.
  assert (Hlit : literal_bytes
                   (front ++ (x02 :: kind :: enc ++ payload ++ [x03]) ++ back)
                 = literal_bytes (front ++ back)).
  { rewrite !(literal_bytes_app front _ result Hfront).
    rewrite (literal_bytes_app _ back [] (literal_bytes_block _ _ _ Henc)).
    by destruct (literal_bytes back). }
  split; [done|]. by rewrite !get_text_literal_bytes, Hlit.
Qed.

(** A block of kind 7 with a two-byte payload that is itself a START byte
    and an END byte, between ["Hi"] and ["!"]. *)
Lemma block_skipped_witness :
  get_text ([x48; x69] ++ (x02 :: x07 :: [x03] ++ [x02; x03] ++ [x03])
            ++ [x21])
  = get_text ([x48; x69] ++ [x21]).
Proof.
  apply (block_skipped [x48; x69] [x21] [x48; x69] x07 [x03] [x02; x03]);
    reflexivity.
Defined.

(** X6. A buffer of ASCII bytes without START comes back as the same
    characters. *)
Theorem get_text_ascii (data : bytes) :
  Forall (fun b => byte_int b < 0x80 /\ b <> x02) data ->
  get_text data = Ok (map byte_int data).
Proof.
  intros Hdata.
  assert (Hfree : Forall (fun b => b <> x02) data)
    by (eapply Forall_impl; [exact Hdata|by intros b [_ ?]]).
  assert (Hascii : Forall (fun b => byte_int b < 0x80) data)
    by (eapply Forall_impl; [exact Hdata|by intros b [? _]]).
  pose proof (reaches_literals data [] Hfree) as Hreach.
  rewrite app_nil_r in Hreach.
  rewrite (reaches_done _ _ Hreach). unfold decode_utf8.
  by rewrite (utf8_decode_ascii _ Hascii).
Qed.

Lemma get_text_ascii_witness :
  get_text (pyb "FC recruiting") = Ok (py "FC recruiting").
Proof.
  apply (get_text_ascii (pyb "FC recruiting")).
  repeat constructor; discriminate.
Defined.

(** ** do_replacements and the line collapsing, further *)

Section Normalize.

Implicit Types (s text old new : str).

Lemma replace_absent text old new :
  ~ occurs_in old text -> replace text old new = text.
Proof.
  destruct old as [|o old].
  { intros []. by exists [], text. }
  induction text as [|c rest IH]; intros Habsent; [done|].
  destruct (starts_with (o :: old) (c :: rest)) eqn:Hsw.
  - destruct Habsent. apply starts_with_spec in Hsw.
    exists [], (drop (length (o :: old)) (c :: rest)). by rewrite <- Hsw.
  - rewrite (replace_no_match _ _ _ _ _ Hsw), IH; [done|].
    intros (pre & post & ->). apply Habsent. by exists (c :: pre), post.
Qed.

Lemma lstrip_id s :
  (forall c, head s = Some c -> isspace c = false) -> lstrip s = s.
Proof.
  destruct s as [|c rest]; [done|]. intros Hhead. cbn.
  by rewrite (Hhead c eq_refl).
Qed.

Lemma lstrip_idemp s : lstrip (lstrip s) = lstrip s.
Proof. apply lstrip_id. intros c. apply lstrip_head. Qed.

Lemma strip_idemp s : strip (strip s) = strip s.
Proof.
  unfold strip at 1.
  rewrite (lstrip_id (strip s)) by (intros c; apply strip_ends).
  unfold strip, rstrip. by rewrite reverse_involutive, lstrip_idemp.
Qed.

Lemma strip_length s : (length (strip s) <= length s)%nat.
Proof.
  destruct (strip_split s) as (ws1 & ws2 & Hs & _).
  rewrite Hs at 2. rewrite !length_app. lia.
Qed.

Lemma collapse_spec_id text :
  Forall (fun c => is_line_end c = false) text -> collapse_spec text = text.
Proof.
  induction 1 as [|c rest Hc _ IH]; [done|].
  unfold is_line_end in Hc. apply orb_false_elim in Hc as [Hcr Hlf].
  cbn [collapse_spec]. by rewrite Hcr, Hlf, IH.
Qed.

Lemma collapse_spec_length text :
  (length (collapse_spec text) <= length text)%nat.
Proof.
  remember (length text) as n eqn:Hn.
  assert (Hle : (length text <= n)%nat) by lia.
  rewrite Hn. clear Hn.
  revert text Hle. induction n as [|n IH]; intros text Hle.
  - destruct text; [done|cbn in Hle; lia].
  - destruct text as [|c rest]; [done|]. cbn in Hle. cbn [collapse_spec].
    destruct (c =? CR).
    + destruct rest as [|d rest']; [done|]. cbn in Hle.
      destruct (d =? LF); cbn [length].
      * specialize (IH rest' ltac:(lia)). lia.
      * specialize (IH (d :: rest') ltac:(cbn; lia)). cbn [length] in IH. lia.
    + specialize (IH rest ltac:(lia)). destruct (c =? LF); cbn [length]; lia.
Qed.

End Normalize.

(** X7. A text in which no needle of the table occurs goes through
    [do_replacements] unchanged. *)
Theorem do_replacements_absent (REPLACEMENTS : list (str * str)) (text : str) :
  Forall (fun entry : str * str => ~ occurs_in (fst entry) text) REPLACEMENTS ->
  do_replacements REPLACEMENTS text = text.
Proof.
  induction 1 as [|[needle replacement] table Habsent _ IH]; [done|].
  rewrite do_replacements_cons, replace_absent; done.
Qed.

(** Under the sample table, which replaces FULLWIDTH COMMA, ["a,b"] stays
    as it is. *)
Lemma do_replacements_absent_witness :
  do_replacements sample_table (py "a,b") = py "a,b".
Proof.
  apply (do_replacements_absent sample_table (py "a,b")).
  constructor; [|constructor].
  intros (pre & post & Heq). cbn in Heq.
  destruct pre as [|? [|? [|? pre]]]; try discriminate.
  destruct pre; discriminate.
Defined.

(** X8. The line collapsing of the content field is idempotent and never
    makes a text longer. *)
Theorem collapse_lines_idempotent (text : str) :
  collapse_lines (collapse_lines text) = collapse_lines text
  /\ (length (collapse_lines text) <= length text)%nat.
Proof.
  destruct (collapse_lines_spec text) as (Hspec & Hcr & Hlf).
  split.
  - destruct (collapse_lines_spec (collapse_lines text)) as (-> & _).
    rewrite collapse_spec_id.
    + rewrite Hspec. apply strip_idemp.
    + apply Forall_forall. intros c Hc. unfold is_line_end.
      destruct (Z.eqb_spec c CR) as [->|]; [done|].
      destruct (Z.eqb_spec c LF) as [->|]; done.
  - rewrite Hspec.
    etransitivity; [apply strip_length|apply collapse_spec_length].
Qed.

(** ** process_item: when it returns what *)

Lemma get_text_raises (data : bytes) (e : exn) :
  get_text data = Raise e ->
  e = IndexError \/ e = AssertionError \/ e = UnicodeDecodeError.
Proof.
  rewrite get_text_literal_bytes. unfold literal_bytes.
  destruct (get_text_loop_outcomes data (length data) [] 0)
    as [[result H]|[H|[H|H]]]; rewrite H; cbn [obind];
    [|naive_solver..].
  unfold decode_utf8. destruct (utf8_decode result); naive_solver.
Qed.

Lemma get_text_not_out_of_fuel (data : bytes) : get_text data <> OutOfFuel.
Proof.
  rewrite get_text_literal_bytes. unfold literal_bytes.
  destruct (get_text_loop_fuel data (length data) (length data) [] 0)
    as [_ Hfuel]; [lia|lia|].
  destruct (get_text_loop _ _ _ _); [|done|done].
  cbn [obind]. unfold decode_utf8. by destruct (utf8_decode _).
Qed.

Section ProcessItemOutcomes.

Variable REPLACEMENTS : list (str * str).
Variable b64decode : bytes -> option bytes.
Variable int_of_str : str -> option Z.

Local Abbreviation process :=
  (process_item REPLACEMENTS b64decode int_of_str).

Lemma process_item_raise (item : report) (e : exn) :
  process item = Raise e ->
  (exists raw, sender_B item = Some raw
               /\ get_text (decode_field b64decode raw) = Raise e)
  \/ (exists raw, content_B item = Some raw
                  /\ get_text (decode_field b64decode raw) = Raise e)
  \/ (e = KeyError
      /\ (type_N item = None \/ reason_S item = None
          \/ suggested_classification_S item = None \/ id_S item = None))
  \/ (e = ValueError
      /\ exists type_text,
          type_N item = Some type_text /\ int_of_str type_text = None).
Proof.
  unfold process_item.
  destruct (sender_B item) as [s|]; [|done].
  destruct (content_B item) as [c|]; [|done].
  destruct (get_text (decode_field b64decode s)) as [st| |] eqn:Hs;
    cbn [obind]; [|intros [= <-]; eauto|done].
  destruct (get_text (decode_field b64decode c)) as [ct| |] eqn:Hc;
    cbn [obind]; [|intros [= <-]; eauto|done].
  destruct (type_N item) as [tt|]; cbn [obind getitem];
    [|intros [= <-]; eauto 10].
  destruct (int_of_str tt) eqn:Hint; cbn [obind];
    [|intros [= <-]; eauto 10].
  destruct (reason_S item); cbn [obind getitem];
    [|intros [= <-]; eauto 10].
  destruct (suggested_classification_S item); cbn [obind getitem];
    [|intros [= <-]; eauto 10].
  destruct (id_S item); cbn [obind getitem]; [done|intros [= <-]; eauto 10].
Qed.

Lemma process_item_not_out_of_fuel (item : report) :
  process item <> OutOfFuel.
Proof.
  unfold process_item.
  destruct (sender_B item) as [s|]; [|done].
  destruct (content_B item) as [c|]; [|done].
  pose proof (get_text_not_out_of_fuel (decode_field b64decode s)).
  pose proof (get_text_not_out_of_fuel (decode_field b64decode c)).
  destruct (get_text (decode_field b64decode s)); cbn [obind]; [|done|done].
  destruct (get_text (decode_field b64decode c)); cbn [obind]; [|done|done].
  destruct (type_N item) as [tt|]; cbn [obind getitem]; [|done].
  destruct (int_of_str tt); cbn [obind]; [|done].
  destruct (reason_S item); cbn [obind getitem]; [|done].
  destruct (suggested_classification_S item); cbn [obind getitem]; [|done].
  destruct (id_S item); cbn [obind getitem]; done.
Qed.

End ProcessItemOutcomes.

(** X9. [process_item] returns [None] exactly when the report has no sender
    or no content, whatever its other attributes are and even when the
    field that is there could not be decoded. *)
Theorem process_item_skips (REPLACEMENTS : list (str * str))
    (b64decode : bytes -> option bytes) (int_of_str : str -> option Z)
    (item : report) :
  process_item REPLACEMENTS b64decode int_of_str item = Ok None <->
  sender_B item = None \/ content_B item = None.
Proof.
  unfold process_item.
  destruct (sender_B item) as [s|]; [|by split; [left|]].
  destruct (content_B item) as [c|]; [|by split; [right|]].
  split; [|by intros [?|?]]. intros Hnone. exfalso. revert Hnone.
  destruct (get_text (decode_field b64decode s)); cbn [obind]; [|done|done].
  destruct (get_text (decode_field b64decode c)); cbn [obind]; [|done|done].
  destruct (getitem (type_N item)) as [tt| |]; cbn [obind]; [|done|done].
  destruct (int_of_str tt); cbn [obind]; [|done].
  destruct (getitem (reason_S item)); cbn [obind]; [|done|done].
  destruct (getitem (suggested_classification_S item)); cbn [obind];
    [|done|done].
  destruct (getitem (id_S item)); cbn [obind]; done.
Qed.

Lemma process_item_skips_witness :
  process_item sample_table sample_b64decode sample_int_of_str
    sample_no_sender = Ok None.
Proof.
  apply (process_item_skips sample_table sample_b64decode sample_int_of_str
           sample_no_sender).
  by left.
Defined.

(** X10. [process_item] returns a dictionary exactly when the six
    attributes are present, sender and content decode and the type parses
    as an integer; the dictionary then holds that integer and the reason,
    the suggested classification and the id as they are stored. *)
Theorem process_item_returns (REPLACEMENTS : list (str * str))
    (b64decode : bytes -> option bytes) (int_of_str : str -> option Z)
    (item : report) (p : processed) :
  process_item REPLACEMENTS b64decode int_of_str item = Ok (Some p) <->
  exists raw_sender raw_content sender_text content_text type_text,
    sender_B item = Some raw_sender
    /\ content_B item = Some raw_content
    /\ get_text (decode_field b64decode raw_sender) = Ok sender_text
    /\ get_text (decode_field b64decode raw_content) = Ok content_text
    /\ type_N item = Some type_text
    /\ int_of_str type_text = Some (type p)
    /\ reason_S item = Some (reason p)
    /\ suggested_classification_S item = Some (suggested_classification p)
    /\ id_S item = Some (id p)
    /\ sender p = do_replacements REPLACEMENTS sender_text
    /\ content p
       = collapse_lines (do_replacements REPLACEMENTS content_text).
Proof.
  unfold process_item. split.
  - destruct (sender_B item) as [s|]; [|done].
    destruct (content_B item) as [c|]; [|done].
    destruct (get_text (decode_field b64decode s)) as [st| |] eqn:Hs;
      cbn [obind]; [|done|done].
    destruct (get_text (decode_field b64decode c)) as [ct| |] eqn:Hc;
      cbn [obind]; [|done|done].
    destruct (type_N item) as [tt|]; cbn [obind getitem]; [|done].
    destruct (int_of_str tt) eqn:Hint; cbn [obind]; [|done].
    destruct (reason_S item); cbn [obind getitem]; [|done].
    destruct (suggested_classification_S item); cbn [obind getitem]; [|done].
    destruct (id_S item); cbn [obind getitem]; [|done].
    intros [= <-]. by exists s, c, st, ct, tt.
  - intros (s & c & st & ct & tt & -> & -> & -> & -> & -> & Hint & -> & ->
            & -> & Hsender & Hcontent).
    cbn [obind getitem]. rewrite Hint. cbn [obind].
    destruct p. cbn in *. by subst.
Qed.

Lemma process_item_returns_witness :
  id_S sample_report = Some (id sample_processed)
  /\ reason_S sample_report = Some (reason sample_processed).
Proof.
  destruct (proj1 (process_item_returns sample_table sample_b64decode
                     sample_int_of_str sample_report sample_processed)
              sample_report_processed)
    as (? & ? & ? & ? & ? & _ & _ & _ & _ & _ & _ & Hreason & _ & Hid & _).
  by split.
Defined.

(** X11. [process_item] does not catch what decoding raises: when it
    raises, either decoding the sender or the content raised that
    exception (IndexError, AssertionError or UnicodeDecodeError), or it is
    the KeyError of a missing type, reason, suggested classification or
    id, or the ValueError of a type that is no integer. *)
Theorem process_item_raises (REPLACEMENTS : list (str * str))
    (b64decode : bytes -> option bytes) (int_of_str : str -> option Z)
    (item : report) (e : exn) :
  process_item REPLACEMENTS b64decode int_of_str item = Raise e ->
  ((exists raw, (sender_B item = Some raw \/ content_B item = Some raw)
                /\ get_text (decode_field b64decode raw) = Raise e)
   /\ (e = IndexError \/ e = AssertionError \/ e = UnicodeDecodeError))
  \/ (e = KeyError
      /\ (type_N item = None \/ reason_S item = None
          \/ suggested_classification_S item = None \/ id_S item = None))
  \/ (e = ValueError
      /\ exists type_text,
          type_N item = Some type_text /\ int_of_str type_text = None).
Proof.
  intros [(raw & Hraw & Hget)|[(raw & Hraw & Hget)|[H|H]]]%process_item_raise;
    [left|left|by right; left|by right; right].
  - split; [by exists raw; eauto|by eapply get_text_raises].
  - split; [by exists raw; eauto|by eapply get_text_raises].
Qed.

(** The content of the sample ends inside a block: the IndexError of
    [get_text] comes out of [process_item]. *)
Lemma process_item_raises_witness :
  exists raw, (sender_B sample_truncated = Some raw
               \/ content_B sample_truncated = Some raw)
              /\ get_text (decode_field sample_b64decode raw)
                 = Raise IndexError.
Proof.
  destruct (process_item_raises sample_table sample_b64decode
              sample_int_of_str sample_truncated IndexError eq_refl)
    as [[Hraw _]|[[H _]|[H _]]]; [exact Hraw|discriminate|discriminate].
Defined.

(** ** The prompts *)

Lemma str_eqb_eq (a b : str) : str_eqb a b = true <-> a = b.
Proof.
  revert b. induction a as [|x a IH]; intros [|y b]; cbn; try done.
  rewrite andb_true_iff, Z.eqb_eq, IH. split; [by intros [-> ->]|].
  by intros [= -> ->].
Qed.

Lemma str_in_spec (x : str) (xs : list str) : str_in x xs = true <-> x ∈ xs.
Proof.
  unfold str_in. rewrite existsb_exists. split.
  - intros (y & Hy & ->%str_eqb_eq). by apply list_elem_of_In.
  - intros Hx. exists x. split; [by apply list_elem_of_In|by apply str_eqb_eq].
Qed.

Lemma fold_print_unchanged {A} (line : A -> str) (xs : list A) (w : world) :
  stdin (fold_left (fun w x => print (line x) w) xs w) = stdin w
  /\ effects (fold_left (fun w x => print (line x) w) xs w) = effects w.
Proof.
  revert w. induction xs as [|x xs IH]; intros w; [done|].
  cbn [fold_left]. by destruct (IH (print (line x) w)) as [-> ->].
Qed.

Section Prompts.

Variable int_of_str : str -> option Z.
Variable lower : str -> str.
Variable isdigit : str -> bool.

Local Abbreviation accepted := (accepted lower).
Local Abbreviation chosen := (chosen int_of_str isdigit).
Local Abbreviation turned_down := (turned_down int_of_str isdigit).
Local Abbreviation crashing := (crashing int_of_str isdigit).

Lemma prompt_action_loop_spec (fuel : nat) (w : world) :
  (length (stdin w) < fuel)%nat ->
  (exists rejected line w',
      prompt_action_loop lower fuel w = Done (lower (strip line)) w'
      /\ stdin w = rejected ++ line :: stdin w'
      /\ Forall (fun l => accepted l = false) rejected
      /\ accepted line = true
      /\ effects w' = effects w)
  \/ (exists w',
      prompt_action_loop lower fuel w = Abort EOFError w'
      /\ Forall (fun l => accepted l = false) (stdin w)
      /\ stdin w' = []
      /\ effects w' = effects w).
Proof.
  revert w. induction fuel as [|fuel IH]; intros w Hfuel; [lia|].
  cbn [prompt_action_loop]. unfold input.
  destruct (stdin w) as [|line rest] eqn:Hin; cbn [rbind].
  - right. eexists. by split_and!.
  - cbn in Hfuel. fold (accepted line).
    destruct (accepted line) eqn:Hline.
    + left. exists [], line. eexists. by split_and!.
    + match goal with
      | |- context [prompt_action_loop lower fuel ?w1] =>
          destruct (IH w1 ltac:(cbn; lia))
            as [(rejected & line' & w' & Hrun & Hsplit & Hrej & Hacc & Heff)
               |(w' & Hrun & Hrej & Hnil & Heff)];
            cbn [stdin effects print] in *
      end.
      * left. exists (line :: rejected), line', w'.
        split_and!; [done|by rewrite Hsplit|by constructor|done|done].
      * right. exists w'. split_and!; [done|by constructor|done|done].
Qed.

Lemma classifications_lookup (n : Z) :
  1 <= n <= 11 ->
  exists c, classifications !! Z.to_nat (n - 1) = Some c.
Proof.
  intros Hn. apply lookup_lt_is_Some. cbn. lia.
Qed.

Lemma prompt_reclassify_loop_spec (fuel : nat) (w : world) :
  (length (stdin w) < fuel)%nat ->
  (exists rejected line n c w',
      prompt_reclassify_loop int_of_str isdigit fuel w = Done c w'
      /\ stdin w = rejected ++ line :: stdin w'
      /\ Forall turned_down rejected
      /\ chosen line n
      /\ classifications !! Z.to_nat (n - 1) = Some c
      /\ effects w' = effects w)
  \/ (exists rejected line w',
      prompt_reclassify_loop int_of_str isdigit fuel w
      = Abort (Exception ValueError) w'
      /\ stdin w = rejected ++ line :: stdin w'
      /\ Forall turned_down rejected
      /\ crashing line
      /\ effects w' = effects w)
  \/ (exists w',
      prompt_reclassify_loop int_of_str isdigit fuel w = Abort EOFError w'
      /\ Forall turned_down (stdin w)
      /\ stdin w' = []
      /\ effects w' = effects w).
Proof.
  revert w. induction fuel as [|fuel IH]; intros w Hfuel; [lia|].
  cbn [prompt_reclassify_loop]. unfold input.
  destruct (stdin w) as [|line rest] eqn:Hin; cbn [rbind].
  { right; right. eexists. by split_and!. }
  cbn in Hfuel. cbv zeta.
  match goal with
  | |- context [prompt_reclassify_loop int_of_str isdigit fuel ?w1] =>
      pose proof (IH w1 ltac:(cbn; lia)) as Hagain;
      set (again := prompt_reclassify_loop int_of_str isdigit fuel w1) in *
  end.
  assert (Hdown : turned_down line ->
            (exists rejected line' n c w',
                again = Done c w'
                /\ line :: rest = rejected ++ line' :: stdin w'
                /\ Forall turned_down rejected
                /\ chosen line' n
                /\ classifications !! Z.to_nat (n - 1) = Some c
                /\ effects w' = effects w)
            \/ (exists rejected line' w',
                again = Abort (Exception ValueError) w'
                /\ line :: rest = rejected ++ line' :: stdin w'
                /\ Forall turned_down rejected
                /\ crashing line'
                /\ effects w' = effects w)
            \/ (exists w',
                again = Abort EOFError w'
                /\ Forall turned_down (line :: rest)
                /\ stdin w' = []
                /\ effects w' = effects w)).
  { intros Hline.
    destruct Hagain
      as [(rejected & line' & n & c & w' & Hrun & Hsplit & Hrej & Hch & Hc
           & Heff)
         |[(rejected & line' & w' & Hrun & Hsplit & Hrej & Hcr & Heff)
          |(w' & Hrun & Hrej & Hnil & Heff)]];
      cbn [stdin effects print] in *.
    - left. exists (line :: rejected), line', n, c, w'.
      split_and!; [done|by rewrite Hsplit|by constructor|done|done|done].
    - right; left. exists (line :: rejected), line', w'.
      split_and!; [done|by rewrite Hsplit|by constructor|done|done].
    - right; right. exists w'. split_and!; [done|by constructor|done|done]. }
  destruct (isdigit (strip line)) eqn:Hdigit; [|apply Hdown; by left].
  destruct (int_of_str (strip line)) as [n|] eqn:Hint.
  - change (Z.of_nat (length classifications)) with 11.
    destruct (Z.leb_spec 1 n); destruct (Z.leb_spec n 11); cbn [andb];
      try (apply Hdown; right; exists n; split; [done|lia]).
    destruct (classifications_lookup n ltac:(lia)) as [c Hc].
    rewrite Hc. left. exists [], line, n, c. eexists.
    split_and!; try done.
  - right; left. exists [], line. eexists. split_and!; try done.
Qed.

End Prompts.

Lemma prompt_action_cases (lower : str -> str) (w : world) :
  let rejects line := lower (strip line) ∉ map fst actions in
  (exists rejected line w',
      prompt_action lower w = Done (lower (strip line)) w'
      /\ lower (strip line) ∈ [py "a"; py "d"; py "k"; py "r"; py "s"]
      /\ stdin w = rejected ++ line :: stdin w'
      /\ Forall rejects rejected
      /\ effects w' = effects w)
  \/ (exists w',
      prompt_action lower w = Abort EOFError w'
      /\ Forall rejects (stdin w)
      /\ effects w' = effects w).
Proof.
  intros rejects. unfold prompt_action. cbv zeta.
  match goal with
  | |- context [prompt_action_loop lower _ ?w1] => set (w0 := w1)
  end.
  assert (Hw0 : stdin w0 = stdin w /\ effects w0 = effects w).
  { unfold w0.
    destruct (fold_print_unchanged
                (fun entry : str * str =>
                   py "  " ++ fst entry ++ py ": " ++ snd entry)
                actions (print (py "Choose an action:") w)) as [-> ->].
    done. }
  destruct Hw0 as [Hin Heff0].
  assert (Hdown : forall lines,
            Forall (fun l => accepted lower l = false) lines ->
            Forall rejects lines).
  { intros lines Hlines. eapply Forall_impl; [exact Hlines|].
    intros l Hl Hin'. apply str_in_spec in Hin'. unfold accepted in Hl.
    congruence. }
  destruct (prompt_action_loop_spec lower (S (length (stdin w0))) w0
              ltac:(lia))
    as [(rejected & line & w' & Hrun & Hsplit & Hrej & Hacc & Heff)
       |(w' & Hrun & Hrej & _ & Heff)].
  - left. exists rejected, line, w'.
    split_and!; [done|by apply str_in_spec in Hacc|congruence|auto|congruence].
  - right. exists w'. rewrite <- Hin. split_and!; [done|auto|congruence].
Qed.

(** X12. [prompt_action] returns nothing but one of the keys a, d, k, r
    and s: the stripped, lower-cased form of the first typed line that is
    one of them.  The lines before it were turned down, the lines behind it
    are left to be read, and when no typed line qualifies the call ends in
    the EOFError of [input]; nothing is written to the CSV file and nothing
    is deleted. *)
Theorem prompt_action_choice (lower : str -> str) (w : world) :
  let rejects line := lower (strip line) ∉ map fst actions in
  (exists rejected line w',
      prompt_action lower w = Done (lower (strip line)) w'
      /\ lower (strip line) ∈ [py "a"; py "d"; py "k"; py "r"; py "s"]
      /\ stdin w = rejected ++ line :: stdin w'
      /\ Forall rejects rejected
      /\ effects w' = effects w)
  \/ (exists w',
      prompt_action lower w = Abort EOFError w'
      /\ Forall rejects (stdin w)
      /\ effects w' = effects w).
Proof. apply prompt_action_cases. Qed.

Lemma prompt_reclassify_cases (int_of_str : str -> option Z)
    (isdigit : str -> bool) (w : world) :
  (exists rejected line n c w',
      prompt_reclassify int_of_str isdigit w = Done c w'
      /\ c ∈ classifications
      /\ classifications !! Z.to_nat (n - 1) = Some c
      /\ chosen int_of_str isdigit line n
      /\ stdin w = rejected ++ line :: stdin w'
      /\ Forall (turned_down int_of_str isdigit) rejected
      /\ effects w' = effects w)
  \/ (exists rejected line w',
      prompt_reclassify int_of_str isdigit w = Abort (Exception ValueError) w'
      /\ crashing int_of_str isdigit line
      /\ stdin w = rejected ++ line :: stdin w'
      /\ Forall (turned_down int_of_str isdigit) rejected
      /\ effects w' = effects w)
  \/ (exists w',
      prompt_reclassify int_of_str isdigit w = Abort EOFError w'
      /\ Forall (turned_down int_of_str isdigit) (stdin w)
      /\ effects w' = effects w).
Proof.
  unfold prompt_reclassify. cbv zeta.
  match goal with
  | |- context [prompt_reclassify_loop _ _ _ ?w1] => set (w0 := w1)
  end.
  assert (Hw0 : stdin w0 = stdin w /\ effects w0 = effects w).
  { unfold w0.
    destruct (fold_print_unchanged
                (fun entry : nat * str =>
                   py "  " ++ str_of_int (Z.of_nat (fst entry))
                   ++ py ": " ++ snd entry)
                (zip (seq 1 (length classifications)) classifications)
                (print (py "Choose a new classification:") w)) as [-> ->].
    done. }
  destruct Hw0 as [Hin Heff0].
  destruct (prompt_reclassify_loop_spec int_of_str isdigit
              (S (length (stdin w0))) w0 ltac:(lia))
    as [(rejected & line & n & c & w' & Hrun & Hsplit & Hrej & Hch & Hc
         & Heff)
       |[(rejected & line & w' & Hrun & Hsplit & Hrej & Hcr & Heff)
        |(w' & Hrun & Hrej & _ & Heff)]].
  - left. exists rejected, line, n, c, w'.
    split_and!; [done| |done|done|congruence|done|congruence].
    by eapply list_elem_of_lookup_2.
  - right; left. exists rejected, line, w'.
    split_and!; [done|done|congruence|done|congruence].
  - right; right. exists w'. rewrite <- Hin.
    split_and!; [done|done|congruence].
Qed.

(** X13. [prompt_reclassify] returns nothing but one of the eleven
    classifications: number [n] of the list for the first typed line that,
    stripped, is made of digits and reads as an integer [n] from 1 to 11.
    Lines that are not made of digits or read as a number outside 1..11 are
    turned down; a line made of digits on which [int] raises ends the call
    in that ValueError, and the end of the input in the EOFError of
    [input]; nothing is written to the CSV file and nothing is deleted. *)
Theorem prompt_reclassify_choice (int_of_str : str -> option Z)
    (isdigit : str -> bool) (w : world) :
  (exists rejected line n c w',
      prompt_reclassify int_of_str isdigit w = Done c w'
      /\ c ∈ classifications
      /\ classifications !! Z.to_nat (n - 1) = Some c
      /\ chosen int_of_str isdigit line n
      /\ stdin w = rejected ++ line :: stdin w'
      /\ Forall (turned_down int_of_str isdigit) rejected
      /\ effects w' = effects w)
  \/ (exists rejected line w',
      prompt_reclassify int_of_str isdigit w = Abort (Exception ValueError) w'
      /\ crashing int_of_str isdigit line
      /\ stdin w = rejected ++ line :: stdin w'
      /\ Forall (turned_down int_of_str isdigit) rejected
      /\ effects w' = effects w)
  \/ (exists w',
      prompt_reclassify int_of_str isdigit w = Abort EOFError w'
      /\ Forall (turned_down int_of_str isdigit) (stdin w)
      /\ effects w' = effects w).
Proof. apply prompt_reclassify_cases. Qed.

(** ** Handling the reports of a batch *)

Ltac eval_keys :=
  repeat match goal with
         | |- context [str_eqb (py ?a) (py ?b)] =>
             let v := eval vm_compute in (str_eqb (py a) (py b)) in
             change (str_eqb (py a) (py b)) with v
         | |- context [str_in (py ?a) ?l] =>
             let v := eval vm_compute in (str_in (py a) l) in
             change (str_in (py a) l) with v
         end;
  cbv iota.

Lemma paired_app (a b : list effect) : paired a -> paired b -> paired (a ++ b).
Proof. induction 1; intros Hb; cbn; [done|constructor; auto..]. Qed.

Lemma caused_by_paired (q : processed) (new : list effect) :
  caused_by q new -> paired new.
Proof.
  intros [->|[->|(c & _ & ->)]]; repeat constructor.
Qed.

Section ReviewItems.

Variable REPLACEMENTS : list (str * str).
Variable b64decode : bytes -> option bytes.
Variable int_of_str : str -> option Z.
Variable lower : str -> str.
Variable isdigit : str -> bool.
Variable missing_key : report -> str.
Variable delete_item : list effect -> str -> option str.

Local Abbreviation process :=
  (process_item REPLACEMENTS b64decode int_of_str).
Local Abbreviation run_item :=
  (review_item REPLACEMENTS b64decode int_of_str lower isdigit missing_key
     delete_item).
Local Abbreviation run_items :=
  (review_items REPLACEMENTS b64decode int_of_str lower isdigit missing_key
     delete_item).
Local Abbreviation delete := (delete_report delete_item).

Lemma delete_report_world (report_id : str) (w : world) :
  effects (delete report_id w) = effects w ++ [DeleteItem report_id]
  /\ stdin (delete report_id w) = stdin w.
Proof.
  unfold delete_report.
  by destruct (delete_item (effects w) report_id).
Qed.

(** A row and the delete request behind it. *)
Lemma write_and_delete (c : str) (q : processed) (w : world) :
  effects (delete (id q) (write_to_csv c (type q) (content q) w))
  = effects w ++ [CsvRow c (type q) (content q); DeleteItem (id q)]
  /\ stdin (delete (id q) (write_to_csv c (type q) (content q) w))
     = stdin w.
Proof.
  destruct (delete_report_world (id q)
              (write_to_csv c (type q) (content q) w)) as [-> ->].
  cbn. by rewrite <- app_assoc.
Qed.

Lemma review_item_cases (auto_accept : bool) (item : report) (w : world) :
  exists new,
    effects (final_world (run_item auto_accept item w)) = effects w ++ new
    /\ (new = [] \/ exists q, process item = Ok (Some q) /\ caused_by q new)
    /\ (auto_accept = true ->
        stdin (final_world (run_item auto_accept item w)) = stdin w)
    /\ (forall w', run_item auto_accept item w <> Abort NoFuel w').
Proof.
  unfold review_item.
  pose proof (process_item_not_out_of_fuel REPLACEMENTS b64decode int_of_str
                item) as Hfuel.
  destruct (process item) as [[q|]|e|] eqn:Hprocess; [| | |done].
  2: { exists []. rewrite app_nil_r. by split_and!; [|left| |]. }
  2: { exists []. rewrite app_nil_r. by split_and!; [|left| |]. }
  destruct auto_accept.
  { eexists. destruct (write_and_delete (suggested_classification q) q w)
      as [Heff Hin].
    cbn [final_world]. split_and!; [exact Heff| |done|done].
    right. exists q. split; [done|]. right; right. eexists. split; [|done].
    by left. }
  cbv zeta.
  assert (Hshow : effects (display_item q w) = effects w) by done.
  destruct (prompt_action_cases lower (display_item q w))
    as [(rejected & line & w1 & Hrun & Hkey & _ & _ & Heff)
       |(w1 & Hrun & _ & Heff)]; rewrite Hrun; cbn [rbind final_world].
  2: { exists []. rewrite app_nil_r. split_and!; [congruence|by left|done..]. }
  rewrite Hshow in Heff.
  repeat apply elem_of_cons in Hkey as [->|Hkey]; eval_keys.
  - destruct (write_and_delete (suggested_classification q) q w1)
      as [Heff' _]. rewrite Heff in Heff'.
    eexists. cbn [final_world]. split_and!; [exact Heff'| |done|done].
    right. exists q. split; [done|]. right; right. eexists. split; [|done].
    by left.
  - destruct (delete_report_world (id q) w1) as [Heff' _].
    rewrite Heff in Heff'.
    eexists. cbn [final_world]. split_and!; [exact Heff'| |done|done].
    right. exists q. split; [done|]. right; by left.
  - destruct (write_and_delete (reason q) q w1) as [Heff' _].
    rewrite Heff in Heff'.
    eexists. cbn [final_world]. split_and!; [exact Heff'| |done|done].
    right. exists q. split; [done|]. right; right. eexists. split; [|done].
    right; by left.
  - destruct (prompt_reclassify_cases int_of_str isdigit w1)
      as [(rejected' & line' & n & c & w2 & Hrun2 & Hc & _ & _ & _ & _
           & Heff2)
         |[(rejected' & line' & w2 & Hrun2 & _ & _ & _ & Heff2)
          |(w2 & Hrun2 & _ & Heff2)]];
      rewrite Hrun2; cbn [rbind final_world].
    + destruct (write_and_delete c q w2) as [Heff' _].
      rewrite Heff2, Heff in Heff'.
      eexists. split_and!; [exact Heff'| |done|done].
      right. exists q. split; [done|]. right; right. eexists.
      split; [|done]. right; by right.
    + exists []. rewrite app_nil_r.
      split_and!; [congruence|by left|done|done].
    + exists []. rewrite app_nil_r.
      split_and!; [congruence|by left|done|done].
  - cbn [final_world]. exists []. rewrite app_nil_r.
    split_and!; [congruence|by left|done|done].
  - by apply elem_of_nil in Hkey.
Qed.

Lemma review_items_app (auto_accept : bool) (front back : list report)
    (w : world) :
  run_items auto_accept (front ++ back) w
  = rbind (run_items auto_accept front w)
          (fun _ w => run_items auto_accept back w).
Proof.
  revert w. induction front as [|item front IH]; intros w; [done|].
  cbn [app review_items].
  destruct (run_item auto_accept item w); cbn [rbind]; [apply IH|done].
Qed.

Lemma prompt_action_first (w : world) (line : str) (rest : list str) :
  stdin w = line :: rest ->
  lower (strip line) ∈ map fst actions ->
  exists w',
    prompt_action lower w = Done (lower (strip line)) w'
    /\ stdin w' = rest /\ effects w' = effects w.
Proof.
  intros Hin Hkey.
  destruct (prompt_action_cases lower w)
    as [(rejected & line' & w' & Hrun & _ & Hsplit & Hrej & Heff)
       |(w' & _ & Hrej & _)]; rewrite Hin in *.
  - destruct rejected as [|l rejected].
    + injection Hsplit as -> ->. by exists w'.
    + injection Hsplit as <- _. by apply Forall_cons in Hrej as [[] _].
  - by apply Forall_cons in Hrej as [[] _].
Qed.

Lemma chosen_not_turned_down (line : str) (n : Z) :
  chosen int_of_str isdigit line n -> ~ turned_down int_of_str isdigit line.
Proof.
  intros (Hdigit & Hint & Hn) [Hno|(n' & Hint' & Hn')]; [congruence|].
  rewrite Hint in Hint'. injection Hint' as <-. by apply Hn'.
Qed.

Lemma prompt_reclassify_first (w : world) (line : str) (rest : list str)
    (n : Z) :
  stdin w = line :: rest ->
  chosen int_of_str isdigit line n ->
  exists c w',
    prompt_reclassify int_of_str isdigit w = Done c w'
    /\ classifications !! Z.to_nat (n - 1) = Some c
    /\ stdin w' = rest /\ effects w' = effects w.
Proof.
  intros Hin Hline.
  pose proof (chosen_not_turned_down _ _ Hline) as Hnot.
  destruct (prompt_reclassify_cases int_of_str isdigit w)
    as [(rejected & line' & n' & c & w' & Hrun & _ & Hc & Hch & Hsplit & Hrej
         & Heff)
       |[(rejected & line' & w' & _ & Hcr & Hsplit & Hrej & _)
        |(w' & _ & Hrej & _)]]; rewrite Hin in *.
  - destruct rejected as [|l rejected].
    + injection Hsplit as -> ->.
      destruct Hline as (_ & Hint & _), Hch as (_ & Hint' & _).
      rewrite Hint in Hint'. injection Hint' as <-. by exists c, w'.
    + injection Hsplit as <- _. by apply Forall_cons in Hrej as [? _].
  - destruct rejected as [|l rejected].
    + injection Hsplit as -> _.
      destruct Hline as (_ & Hint & _), Hcr as (_ & Hint').
      congruence.
    + injection Hsplit as <- _. by apply Forall_cons in Hrej as [? _].
  - by apply Forall_cons in Hrej as [? _].
Qed.

End ReviewItems.

(** X14. Under [auto_accept] a batch adds, for every report that
    [process_item] turns into a dictionary, one row (suggested
    classification, type, content) and the delete request for that report,
    in the order of the batch; reports without sender or content add
    nothing, the first report on which [process_item] raises ends the
    batch there, and no typed line is read. *)
Theorem review_items_auto (REPLACEMENTS : list (str * str))
    (b64decode : bytes -> option bytes) (int_of_str : str -> option Z)
    (lower : str -> str) (isdigit : str -> bool)
    (missing_key : report -> str)
    (delete_item : list effect -> str -> option str)
    (items : list report) (w : world) :
  let process := process_item REPLACEMENTS b64decode int_of_str in
  let r := review_items REPLACEMENTS b64decode int_of_str lower isdigit
       missing_key delete_item true items w in
  effects (final_world r) = effects w ++ auto_effects process items
  /\ stdin (final_world r) = stdin w
  /\ ((exists w', r = Done tt w')
      <-> Forall (fun item => exists o, process item = Ok o) items).
Proof.
  cbv zeta. revert w. induction items as [|item items IH]; intros w.
  { cbn. rewrite app_nil_r. split_and!; [done|done|]. split; [done|eauto]. }
  cbn [review_items auto_effects]. unfold review_item.
  destruct (process_item REPLACEMENTS b64decode int_of_str item)
    as [[q|]|e|] eqn:Hprocess; cbn [rbind final_world].
  - destruct (write_and_delete delete_item (suggested_classification q) q w)
      as [Heff Hin].
    match goal with
    | |- context [review_items _ _ _ _ _ _ _ true items ?w1] =>
        destruct (IH w1) as (-> & -> & Hdone)
    end.
    rewrite Heff, Hin, <- app_assoc. split_and!; [done|done|].
    rewrite Hdone, Forall_cons. split; [by eauto|by intros [_ ?]].
  - match goal with
    | |- context [review_items _ _ _ _ _ _ _ true items ?w1] =>
        destruct (IH w1) as (-> & -> & Hdone)
    end.
    split_and!; [done|done|].
    rewrite Hdone, Forall_cons. split; [by eauto|by intros [_ ?]].
  - rewrite app_nil_r. split_and!; [done|done|].
    split; [by intros [? ?]|]. intros [[o Ho] _]%Forall_cons. congruence.
  - rewrite app_nil_r. split_and!; [done|done|].
    split; [by intros [? ?]|]. intros [[o Ho] _]%Forall_cons. congruence.
Qed.

(** X15. Handling one report adds nothing to the effects, or the delete
    request for that report, or one row with its type and content directly
    followed by the delete request for it; the classification of the row
    is the suggested one, the original reason or one of the eleven
    classifications.  Under [auto_accept] no typed line is read, and the
    budget of the prompt loops is never used up. *)
Theorem review_item_effects (REPLACEMENTS : list (str * str))
    (b64decode : bytes -> option bytes) (int_of_str : str -> option Z)
    (lower : str -> str) (isdigit : str -> bool)
    (missing_key : report -> str)
    (delete_item : list effect -> str -> option str)
    (auto_accept : bool) (item : report) (w : world) :
  let r := review_item REPLACEMENTS b64decode int_of_str lower isdigit
       missing_key delete_item auto_accept item w in
  exists new,
    effects (final_world r) = effects w ++ new
    /\ (new = []
        \/ exists q,
            process_item REPLACEMENTS b64decode int_of_str item = Ok (Some q)
            /\ caused_by q new)
    /\ (auto_accept = true -> stdin (final_world r) = stdin w)
    /\ (forall w', r <> Abort NoFuel w').
Proof. apply review_item_cases. Qed.

(** X16. Whatever is typed and however a batch ends, in the effects it
    adds every row is directly followed by a delete request, and every
    row and every delete request comes from a report of the batch that
    [process_item] turned into a dictionary: the row has that report's type
    and content, the request that report's id. *)
Theorem review_items_paired (REPLACEMENTS : list (str * str))
    (b64decode : bytes -> option bytes) (int_of_str : str -> option Z)
    (lower : str -> str) (isdigit : str -> bool)
    (missing_key : report -> str)
    (delete_item : list effect -> str -> option str)
    (auto_accept : bool) (items : list report) (w : world) :
  let process := process_item REPLACEMENTS b64decode int_of_str in
  let r := review_items REPLACEMENTS b64decode int_of_str lower isdigit
       missing_key delete_item auto_accept items w in
  exists new,
    effects (final_world r) = effects w ++ new
    /\ paired new
    /\ (forall report_id, DeleteItem report_id ∈ new ->
          exists item q, item ∈ items /\ process item = Ok (Some q)
                         /\ id q = report_id)
    /\ (forall c t x, CsvRow c t x ∈ new ->
          exists item q, item ∈ items /\ process item = Ok (Some q)
                         /\ type q = t /\ content q = x).
Proof.
  cbv zeta. revert w. induction items as [|item items IH]; intros w.
  { exists []. cbn. rewrite app_nil_r.
    split_and!; [done|constructor|by intros ? ?%elem_of_nil
                |by intros ? ? ? ?%elem_of_nil]. }
  cbn [review_items].
  destruct (review_item_cases REPLACEMENTS b64decode int_of_str lower isdigit
              missing_key delete_item auto_accept item w)
    as (new1 & Heff1 & Hnew1 & _ & _).
  assert (Hpaired1 : paired new1).
  { destruct Hnew1 as [->|(q & _ & Hq)];
      [constructor|by eapply caused_by_paired]. }
  assert (Hfrom1 :
            (forall report_id, DeleteItem report_id ∈ new1 ->
               exists q, process_item REPLACEMENTS b64decode int_of_str item
                         = Ok (Some q) /\ id q = report_id)
            /\ (forall c t x, CsvRow c t x ∈ new1 ->
                  exists q, process_item REPLACEMENTS b64decode int_of_str item
                            = Ok (Some q) /\ type q = t /\ content q = x)).
  { destruct Hnew1 as [->|(q & Hq & [->|[->|(c & _ & ->)]])].
    - split; [by intros ? ?%elem_of_nil|by intros ? ? ? ?%elem_of_nil].
    - split; [by intros ? ?%elem_of_nil|by intros ? ? ? ?%elem_of_nil].
    - split.
      + intros report_id [= ->]%list_elem_of_singleton. by exists q.
      + by intros ? ? ? [=]%list_elem_of_singleton.
    - split.
      + intros report_id [[=]|[= ->]%list_elem_of_singleton]%elem_of_cons.
        by exists q.
      + intros c' t x [[= -> -> ->]|[=]%list_elem_of_singleton]%elem_of_cons.
        by exists q. }
  destruct Hfrom1 as [Hdel1 Hrow1].
  destruct (review_item _ _ _ _ _ _ _ auto_accept item w) as [[] w1|why w1];
    cbn [rbind final_world] in *.
  - destruct (IH w1) as (new2 & Heff2 & Hpaired2 & Hdel2 & Hrow2).
    exists (new1 ++ new2). rewrite Heff2, Heff1, <- app_assoc.
    split_and!; [done|by apply paired_app| |].
    + intros report_id [Hin|Hin]%elem_of_app.
      * destruct (Hdel1 _ Hin) as (q & ? & ?). exists item, q.
        split_and!; [by left|done|done].
      * destruct (Hdel2 _ Hin) as (item' & q & ? & ? & ?). exists item', q.
        split_and!; [by right|done|done].
    + intros c t x [Hin|Hin]%elem_of_app.
      * destruct (Hrow1 _ _ _ Hin) as (q & ? & ? & ?). exists item, q.
        split_and!; [by left|done|done|done].
      * destruct (Hrow2 _ _ _ Hin) as (item' & q & ? & ? & ? & ?).
        exists item', q. split_and!; [by right|done|done|done].
  - exists new1. split_and!; [done|done| |].
    + intros report_id Hin. destruct (Hdel1 _ Hin) as (q & ? & ?).
      exists item, q. split_and!; [by left|done|done].
    + intros c t x Hin. destruct (Hrow1 _ _ _ Hin) as (q & ? & ? & ?).
      exists item, q. split_and!; [by left|done|done|done].
Qed.

(** X17. A report on which [process_item] raises stops the review with
    that exception: the reports before it have been handled, and neither
    it nor the reports behind it add a row or a delete request. *)
Theorem review_items_stops (REPLACEMENTS : list (str * str))
    (b64decode : bytes -> option bytes) (int_of_str : str -> option Z)
    (lower : str -> str) (isdigit : str -> bool)
    (missing_key : report -> str)
    (delete_item : list effect -> str -> option str)
    (auto_accept : bool) (front back : list report) (bad : report)
    (w w1 : world) (e : exn) :
  review_items REPLACEMENTS b64decode int_of_str lower isdigit
       missing_key delete_item auto_accept front w = Done tt w1 ->
  process_item REPLACEMENTS b64decode int_of_str bad = Raise e ->
  review_items REPLACEMENTS b64decode int_of_str lower isdigit
       missing_key delete_item auto_accept (front ++ bad :: back) w
  = Abort (Exception e) w1.
Proof.
  intros Hfront Hbad. rewrite review_items_app, Hfront.
  cbn [rbind review_items]. unfold review_item. by rewrite Hbad.
Qed.

(** The sample report is handled, the truncated one stops the batch, and
    the second copy of the sample report is not looked at. *)
Lemma review_items_stops_witness :
  exists w1,
    review_items sample_table sample_b64decode sample_int_of_str sample_lower
       sample_isdigit sample_missing_key sample_delete_item true
      ([sample_report] ++ sample_truncated :: [sample_report])
      (mk_world [] [] [])
    = Abort (Exception IndexError) w1
    /\ effects w1 = [CsvRow (py "RMT_C") 1 (py "line1 line2 line3");
                     DeleteItem (py "r1")].
Proof.
  eexists. split.
  - apply (review_items_stops sample_table sample_b64decode sample_int_of_str sample_lower
       sample_isdigit sample_missing_key sample_delete_item true
             [sample_report] [sample_report] sample_truncated
             (mk_world [] [] [])); vm_compute; reflexivity.
  - reflexivity.
Defined.

(** X18. What the keys do: when the first typed line, stripped and
    lower-cased, is s, the report is left alone; d adds the delete request
    alone; a adds a row with the suggested classification and the delete
    request; k adds a row with the original reason and the delete request;
    in each case that one line is read.  After r, a next line that
    [prompt_reclassify] takes as the number [n] adds a row with
    classification number [n] and the delete request, and both lines are
    read. *)
Theorem review_item_keys (REPLACEMENTS : list (str * str))
    (b64decode : bytes -> option bytes) (int_of_str : str -> option Z)
    (lower : str -> str) (isdigit : str -> bool)
    (missing_key : report -> str)
    (delete_item : list effect -> str -> option str)
    (item : report) (q : processed) (w : world) (line : str)
    (rest : list str) :
  process_item REPLACEMENTS b64decode int_of_str item = Ok (Some q) ->
  stdin w = line :: rest ->
  let key := lower (strip line) in
  let r := review_item REPLACEMENTS b64decode int_of_str lower isdigit
       missing_key delete_item false item w in
  let row c := CsvRow c (type q) (content q) in
  (key = py "s" ->
   exists w', r = Done tt w' /\ stdin w' = rest /\ effects w' = effects w)
  /\ (key = py "d" ->
      exists w', r = Done tt w' /\ stdin w' = rest
                 /\ effects w' = effects w ++ [DeleteItem (id q)])
  /\ (key = py "a" ->
      exists w', r = Done tt w' /\ stdin w' = rest
                 /\ effects w'
                    = effects w ++ [row (suggested_classification q);
                                    DeleteItem (id q)])
  /\ (key = py "k" ->
      exists w', r = Done tt w' /\ stdin w' = rest
                 /\ effects w'
                    = effects w ++ [row (reason q); DeleteItem (id q)])
  /\ (forall line2 rest2 n,
        key = py "r" ->
        rest = line2 :: rest2 ->
        chosen int_of_str isdigit line2 n ->
        exists c w', r = Done tt w' /\ stdin w' = rest2
                     /\ classifications !! Z.to_nat (n - 1) = Some c
                     /\ effects w' = effects w ++ [row c; DeleteItem (id q)]).
Proof.
  intros Hprocess Hin. cbv zeta. unfold review_item. rewrite Hprocess.
  cbv zeta.
  assert (Hrun : lower (strip line) ∈ map fst actions ->
            exists w1,
              prompt_action lower (display_item q w)
              = Done (lower (strip line)) w1
              /\ stdin w1 = rest /\ effects w1 = effects w).
  { intros Hkey.
    destruct (prompt_action_first lower (display_item q w) line rest Hin Hkey)
      as (w1 & ? & ? & ?). by exists w1. }
  split_and!; [| | | |intros line2 rest2 n]; intros Hkey; rewrite Hkey in Hrun;
    (destruct Hrun as (w1 & -> & Hin1 & Heff1);
     [by apply str_in_spec|]); cbn [rbind]; eval_keys.
  5: { intros -> Hline2.
       destruct (prompt_reclassify_first int_of_str isdigit w1 line2 rest2 n
                   Hin1 Hline2) as (c & w2 & -> & Hc & Hin2 & Heff2).
       cbn [rbind].
       destruct (write_and_delete delete_item c q w2) as [Heff Hin'].
       exists c. eexists. split_and!; [done|congruence|done|congruence]. }
  - by exists w1.
  - destruct (delete_report_world delete_item (id q) w1) as [Heff Hin'].
    eexists. split_and!; [done|congruence|congruence].
  - destruct (write_and_delete delete_item (suggested_classification q) q w1)
      as [Heff Hin'].
    eexists. split_and!; [done|congruence|congruence].
  - destruct (write_and_delete delete_item (reason q) q w1) as [Heff Hin'].
    eexists. split_and!; [done|congruence|congruence].
Qed.

(** The sample report, kept under its original reason with [" K "]. *)
Lemma review_item_keys_witness :
  exists w',
    review_item sample_table sample_b64decode sample_int_of_str sample_lower
       sample_isdigit sample_missing_key sample_delete_item false sample_report
      (mk_world [py " K "; py "x"] [] []) = Done tt w'
    /\ stdin w' = [py "x"]
    /\ effects w' = [CsvRow (py "NORMAL") 1 (py "line1 line2 line3");
                     DeleteItem (py "r1")].
Proof.
  destruct (review_item_keys sample_table sample_b64decode sample_int_of_str sample_lower
       sample_isdigit sample_missing_key sample_delete_item sample_report sample_processed
              (mk_world [py " K "; py "x"] [] []) (py " K ") [py "x"]
              sample_report_processed eq_refl)
    as (_ & _ & _ & Hk & _).
  apply Hk. reflexivity.
Defined.

(** ** get_int: the integers it can return *)

Lemma byte_of_int (x : Z) : 0 <= x < 256 -> exists b, byte_int b = x.
Proof.
  intros Hx. destruct (Byte.of_N (Z.to_N x)) as [b|] eqn:Hb.
  - exists b. unfold byte_int. apply Byte.to_of_N in Hb. lia.
  - apply Byte.of_N_None_iff in Hb. lia.
Qed.

(** Marker 0xFE: the four bytes behind it, most significant first. *)
Lemma get_int_four_bytes (b3 b2 b1 b0 : byte) :
  get_int (BytesIO.mk [xfe; b3; b2; b1; b0] 0)
  = Ok (byte_int b0 + 256 * (byte_int b1 + 256 * (byte_int b2
                                                  + 256 * byte_int b3)),
        BytesIO.mk [xfe; b3; b2; b1; b0] 5).
Proof.
  rewrite get_int_run. cbn [lookup list_lookup].
  change (byte_int xfe <? 208) with false. cbv iota.
  unfold get_int_buffer. cbv zeta.
  change (Z.land (byte_int xfe + 1) 15) with 15.
  cbn [for_each seq].
  repeat (rewrite get_int_step_run;
          match goal with
          | |- context [negb ?t] =>
              let v := eval vm_compute in (negb t) in
              change (negb t) with v; cbv iota
          end;
          cbn [lookup list_lookup]).
  unfold ret. cbn. do 2 f_equal. lia.
Qed.

(** X19. Every integer from -1 to 2^32 - 1 is the value of an encoding of
    at most five bytes that [get_int] reads to its end. *)
Theorem get_int_onto (n : Z) :
  -1 <= n < 2 ^ 32 ->
  exists enc : bytes,
    (1 <= length enc <= 5)%nat
    /\ get_int (BytesIO.mk enc 0) = Ok (n, BytesIO.mk enc (length enc)).
Proof.
  intros Hn. change (2 ^ 32) with 4294967296 in Hn.
  destruct (byte_of_int (n mod 256) ltac:(apply Z.mod_pos_bound; lia))
    as [b0 Hb0].
  destruct (byte_of_int (n / 256 mod 256)
              ltac:(apply Z.mod_pos_bound; lia)) as [b1 Hb1].
  destruct (byte_of_int (n / 65536 mod 256)
              ltac:(apply Z.mod_pos_bound; lia)) as [b2 Hb2].
  destruct (Z.eq_dec n (-1)) as [->|Hne].
  { exists [x00]. split; [cbn; lia|reflexivity]. }
  assert (H3 : 0 <= n / 16777216 < 256).
  { split; [apply Z.div_pos; lia|apply Z.div_lt_upper_bound; lia]. }
  destruct (byte_of_int (n / 16777216) H3) as [b3 Hb3].
  exists [xfe; b3; b2; b1; b0]. split; [cbn; lia|].
  rewrite get_int_four_bytes, Hb0, Hb1, Hb2, Hb3. cbn [length].
  do 2 f_equal.
  pose proof (Z.div_mod n 256 ltac:(lia)).
  pose proof (Z.div_mod (n / 256) 256 ltac:(lia)).
  pose proof (Z.div_mod (n / 65536) 256 ltac:(lia)).
  assert (n / 256 / 256 = n / 65536)
    by (rewrite Z.div_div by lia; reflexivity).
  assert (n / 65536 / 256 = n / 16777216)
    by (rewrite Z.div_div by lia; reflexivity).
  lia.
Qed.

(** The length 300 of a payload, as an encoding. *)
Lemma get_int_onto_witness :
  exists enc : bytes,
    (1 <= length enc <= 5)%nat
    /\ get_int (BytesIO.mk enc 0) = Ok (300, BytesIO.mk enc (length enc)).
Proof. apply (get_int_onto 300). lia. Defined.

(** ** The sample session *)

(** The sample report and the report without a sender, under
    [auto_accept]: one row, one delete request, and the batch is done. *)
Lemma review_items_auto_witness :
  effects (final_world
             (review_items sample_table sample_b64decode sample_int_of_str sample_lower
       sample_isdigit sample_missing_key sample_delete_item true
                [sample_report; sample_no_sender] (mk_world [] [] [])))
  = [CsvRow (py "RMT_C") 1 (py "line1 line2 line3"); DeleteItem (py "r1")]
  /\ exists w',
      review_items sample_table sample_b64decode sample_int_of_str sample_lower
       sample_isdigit sample_missing_key sample_delete_item true
        [sample_report; sample_no_sender] (mk_world [] [] [])
      = Done tt w'.
Proof.
  pose proof (review_items_auto sample_table sample_b64decode sample_int_of_str sample_lower
       sample_isdigit sample_missing_key sample_delete_item
                [sample_report; sample_no_sender] (mk_world [] [] []))
    as H.
  cbv zeta in H. destruct H as (Heff & _ & Hdone).
  split.
  - etransitivity; [exact Heff|]. vm_compute. reflexivity.
  - apply Hdone. repeat constructor; eexists; vm_compute; reflexivity.
Defined.

(** Under [auto_accept] the typed lines of the sample session stay where
    they are. *)
Lemma review_item_effects_witness :
  stdin (final_world
           (review_item sample_table sample_b64decode sample_int_of_str sample_lower
       sample_isdigit sample_missing_key sample_delete_item true sample_report
              (mk_world [py "d"] [] [])))
  = stdin (mk_world [py "d"] [] []).
Proof.
  pose proof (review_item_effects sample_table sample_b64decode sample_int_of_str sample_lower
       sample_isdigit sample_missing_key sample_delete_item true sample_report
                (mk_world [py "d"] [] [])) as H.
  cbv zeta in H. destruct H as (new & _ & _ & Hin & _).
  exact (Hin eq_refl).
Defined.

(** The sample report twice, answered with an unknown key, then [d], then
    [r] and the number 3. *)
Lemma review_items_paired_witness :
  exists new,
    effects (final_world
               (review_items sample_table sample_b64decode sample_int_of_str sample_lower
       sample_isdigit sample_missing_key sample_delete_item false
                  [sample_report; sample_report]
                  (mk_world [py "x"; py "d"; py "r"; py "3"] [] [])))
    = effects (mk_world [py "x"; py "d"; py "r"; py "3"] [] []) ++ new
    /\ paired new.
Proof.
  pose proof (review_items_paired sample_table sample_b64decode sample_int_of_str sample_lower
       sample_isdigit sample_missing_key sample_delete_item false
                [sample_report; sample_report]
                (mk_world [py "x"; py "d"; py "r"; py "3"] [] [])) as H.
  cbv zeta in H. destruct H as (new & Heff & Hpaired & _).
  exists new. split; [exact Heff|exact Hpaired].
Defined.
